(** * Gas accounting of the erigone repricing overlay

    A shallow embedding of the patched gas functions of the overlay
    (gas schedule lookup, precompile gas, custom intrinsic gas, SSTORE and
    CALL-family dynamic gas, the SSTORE override installation of
    [applyOverrides]) and of the structured-log tracer, with theorems about
    them.  Go [uint64] values are modelled as [Z] in [0, 2^64) with the
    wrap-around of Go's [+], [*] and [-] written out. *)

From Stdlib Require Import ZArith Lia Bool.
From stdpp Require Import base gmap sets list strings.

Open Scope Z_scope.

(** ** Go [uint64] arithmetic *)
Module U64.
Definition MAX : Z := 2 ^ 64 - 1.
Definition modulus : Z := 2 ^ 64.

(** Go's wrapping [a + b], [a * b] and [a - b] on [uint64]. *)
Definition add (a b : Z) : Z := (a + b) mod modulus.
Definition mul (a b : Z) : Z := (a * b) mod modulus.
Definition sub (a b : Z) : Z := (a - b) mod modulus.

(** [math.SafeAdd] / [math.SafeMul]: the wrapped result and an overflow flag. *)
Definition SafeAdd (a b : Z) : Z * bool := (add a b, MAX <? a + b).
Definition SafeMul (a b : Z) : Z * bool := (mul a b, MAX <? a * b).

Definition valid (a : Z) : Prop := 0 <= a <= MAX.
End U64.

(** [safeSub] of datasource.go: saturating subtraction. *)
Definition safeSub (a b : Z) : Z := if a <? b then 0 else a - b.

(** Erigon parameters used by the overlay (execution/protocol/params). *)
Module params.
Definition TxAccessListStorageKeyGas : Z := 1900.
Definition SstoreSentryGasEIP2200 : Z := 2300.
Definition ColdSloadCostEIP2929 : Z := 2100.
Definition WarmStorageReadCostEIP2929 : Z := 100.
Definition SstoreSetGasEIP2200 : Z := 20000.
Definition SstoreResetGasEIP2200 : Z := 5000.
Definition ColdAccountAccessCostEIP2929 : Z := 2600.
Definition CallValueTransferGas : Z := 9000.
Definition CallNewAccountGas : Z := 25000.
Definition TxGas : Z := 21000.
Definition TxGasContractCreation : Z := 53000.
Definition TxAAGas : Z := 15000.
Definition TxDataNonZeroGasFrontier : Z := 68.
Definition TxDataNonZeroGasEIP2028 : Z := 16.
Definition TxDataZeroGas : Z := 4.
Definition InitCodeWordGas : Z := 2.
Definition TxTotalCostFloorPerToken : Z := 10.
Definition TxAccessListAddressGas : Z := 2400.
Definition PerEmptyAccountCost : Z := 25000.
Definition Sha256BaseGas : Z := 60.
Definition Sha256PerWordGas : Z := 12.
Definition Ripemd160BaseGas : Z := 600.
Definition Ripemd160PerWordGas : Z := 120.
Definition IdentityBaseGas : Z := 15.
Definition IdentityPerWordGas : Z := 3.
Definition Bn254PairingBaseGasIstanbul : Z := 45000.
Definition Bn254PairingPerPointGasIstanbul : Z := 34000.
Definition Bls12381PairingBaseGas : Z := 37700.
Definition Bls12381PairingPerPairGas : Z := 32600.
Definition Bls12381G1MulGas : Z := 12000.
Definition Bls12381G2MulGas : Z := 22500.
Definition MemoryGas : Z := 3.
Definition QuadCoeffDiv : Z := 512.
Definition ExpGas : Z := 10.
Definition ExpByteEIP160 : Z := 50.
Definition Keccak256Gas : Z := 30.
Definition Keccak256WordGas : Z := 6.
Definition LogGas : Z := 375.
Definition LogTopicGas : Z := 375.
Definition LogDataGas : Z := 8.
Definition CopyGas : Z := 3.
Definition CreateGas : Z := 32000.
Definition Create2Gas : Z := 32000.
Definition BalanceGasEIP1884 : Z := 700.
Definition ExtcodeSizeGasEIP150 : Z := 700.
Definition ExtcodeCopyBaseEIP150 : Z := 700.
Definition ExtcodeHashGasEIP1884 : Z := 700.
Definition SelfdestructGasEIP150 : Z := 5000.
End params.

(** ** Gas schedule (execution/vm/gas_schedule.go) *)

(** [GasSchedule{Overrides map[string]uint64}]; a nil map is [None]. *)
Record GasSchedule := { Overrides : option (gmap string Z) }.

(** The [GetOr] method of [GasSchedule]; a nil receiver pointer is [None]. *)
Definition GetOr (g : option GasSchedule) (key : string) (defaultVal : Z) : Z :=
  match g with
  | Some s =>
      match Overrides s with
      | Some m => match m !! key with Some v => v | None => defaultVal end
      | None => defaultVal
      end
  | None => defaultVal
  end.

(** ** Precompile gas (execution/vm/precompile_gas.go) *)

Definition byteZ (b : Byte.byte) : Z := Z.of_nat (Byte.to_nat b).

(** [binary.BigEndian.Uint32] of the first four bytes. *)
Definition Uint32BE (input : list Byte.byte) : Z :=
  match input with
  | b0 :: b1 :: b2 :: b3 :: _ =>
      byteZ b0 * 2 ^ 24 + byteZ b1 * 2 ^ 16 + byteZ b2 * 2 ^ 8 + byteZ b3
  | _ => 0
  end.

Definition precompileBasePerWord (schedule : option GasSchedule)
    (baseKey perWordKey : string) (input : list Byte.byte)
    (defaultBase defaultPerWord : Z) : Z :=
  let base := GetOr schedule baseKey defaultBase in
  let perWord := GetOr schedule perWordKey defaultPerWord in
  let words := (Z.of_nat (length input) + 31) / 32 in
  U64.add base (U64.mul perWord words).

Definition precompileBasePerPair (schedule : option GasSchedule)
    (baseKey perPairKey : string) (input : list Byte.byte) (pairSize : Z)
    (defaultBase defaultPerPair : Z) : Z :=
  let base := GetOr schedule baseKey defaultBase in
  let perPair := GetOr schedule perPairKey defaultPerPair in
  let pairs := Z.of_nat (length input) / pairSize in
  U64.add base (U64.mul perPair pairs).

Definition precompileBlake2f (schedule : option GasSchedule)
    (input : list Byte.byte) : Z :=
  if negb (Nat.eqb (length input) 213) then 0
  else
    let rounds := Uint32BE input in
    let base := GetOr schedule "PC_BLAKE2F_BASE" 0 in
    let perRound := GetOr schedule "PC_BLAKE2F_PER_ROUND" 1 in
    U64.add base (U64.mul perRound rounds).

Definition precompileModexp (schedule : option GasSchedule) (defaultGas : Z) : Z :=
  let minGas := GetOr schedule "PC_MODEXP_MIN_GAS" 200 in
  if defaultGas <? minGas then minGas else defaultGas.

Section Msm.
(** The BLS12-381 MSM discount tables of Erigon's params package
    ([Bls12381MSMDiscountTableG1] / [G2]); the overlay only indexes them. *)
Variables Bls12381MSMDiscountTableG1 Bls12381MSMDiscountTableG2 : list Z.

Definition msmDiscount (table : list Z) (k : Z) : Z :=
  let dLen := Z.of_nat (length table) in
  if k <? dLen then nth (Z.to_nat (k - 1)) table 0
  else nth (Z.to_nat (dLen - 1)) table 0.

Definition precompileMsm (schedule : option GasSchedule) (mulGasKey : string)
    (input : list Byte.byte) (pointSize defaultMulGas : Z) : Z :=
  let k := Z.of_nat (length input) / pointSize in
  if k =? 0 then 0
  else
    let mulGas := GetOr schedule mulGasKey defaultMulGas in
    let discount :=
      if pointSize =? 160 then msmDiscount Bls12381MSMDiscountTableG1 k
      else msmDiscount Bls12381MSMDiscountTableG2 k in
    U64.mul (U64.mul k mulGas) discount / 1000.

Definition fixedGasPrecompiles : list string :=
  ["ECREC"; "BN254_ADD"; "BN254_MUL"; "BLS12_G1ADD"; "BLS12_G2ADD";
   "BLS12_MAP_FP_TO_G1"; "BLS12_MAP_FP2_TO_G2"; "KZG_POINT_EVALUATION";
   "P256VERIFY"].

Definition PrecompileGasWithOverrides (schedule : option GasSchedule)
    (name : string) (input : list Byte.byte) (defaultGas : Z) : Z :=
  match schedule with
  | None => defaultGas
  | Some _ =>
    if existsb (String.eqb name) fixedGasPrecompiles then
      GetOr schedule (String.append "PC_" name) defaultGas
    else if String.eqb name "SHA256" then
      precompileBasePerWord schedule "PC_SHA256_BASE" "PC_SHA256_PER_WORD" input
        params.Sha256BaseGas params.Sha256PerWordGas
    else if String.eqb name "RIPEMD160" then
      precompileBasePerWord schedule "PC_RIPEMD160_BASE" "PC_RIPEMD160_PER_WORD" input
        params.Ripemd160BaseGas params.Ripemd160PerWordGas
    else if String.eqb name "ID" then
      precompileBasePerWord schedule "PC_ID_BASE" "PC_ID_PER_WORD" input
        params.IdentityBaseGas params.IdentityPerWordGas
    else if String.eqb name "MODEXP" then
      precompileModexp schedule defaultGas
    else if String.eqb name "BN254_PAIRING" then
      precompileBasePerPair schedule "PC_BN254_PAIRING_BASE" "PC_BN254_PAIRING_PER_PAIR"
        input 192 params.Bn254PairingBaseGasIstanbul params.Bn254PairingPerPointGasIstanbul
    else if String.eqb name "BLAKE2F" then
      precompileBlake2f schedule input
    else if String.eqb name "BLS12_PAIRING_CHECK" then
      precompileBasePerPair schedule "PC_BLS12_PAIRING_CHECK_BASE"
        "PC_BLS12_PAIRING_CHECK_PER_PAIR" input 384
        params.Bls12381PairingBaseGas params.Bls12381PairingPerPairGas
    else if String.eqb name "BLS12_G1MSM" then
      precompileMsm schedule "PC_BLS12_G1MSM_MUL_GAS" input 160 params.Bls12381G1MulGas
    else if String.eqb name "BLS12_G2MSM" then
      precompileMsm schedule "PC_BLS12_G2MSM_MUL_GAS" input 288 params.Bls12381G2MulGas
    else defaultGas
  end.
End Msm.

(** ** Custom intrinsic gas (execution/vm/intrinsic_gas_override.go) *)

(** Early return on overflow: [product, overflow := math.SafeMul(..);
    if overflow { return 0, 0 }]. *)
Definition checked {A} (r : Z * bool) (k : Z -> A * A) (zero : A) : A * A :=
  if snd r then (zero, zero) else k (fst r).

Notation "'let!' x ':=' e 'in' k" := (checked e (fun x => k) 0)
  (at level 200, x name, e at level 100, k at level 200).

(** The [nz] loop: number of non-zero bytes of [data]. *)
Fixpoint countNonZero (data : list Byte.byte) : Z :=
  match data with
  | [] => 0
  | b :: rest => (if Byte.eqb b Byte.x00 then 0 else 1) + countNonZero rest
  end.

Definition intrinsicToWordSize (size : Z) : Z :=
  if U64.MAX - 31 <? size then U64.MAX / 32 + 1 else (size + 31) / 32.

Definition CalcCustomIntrinsicGas (schedule : option GasSchedule)
    (data : list Byte.byte) (accessListLen storageKeysLen : Z)
    (isContractCreation isEIP2 isEIP2028 isEIP3860 isEIP7623 isAATxn : bool)
    (authorizationsLen : Z) : Z * Z :=
  let gas :=
    if isContractCreation && isEIP2 then
      GetOr schedule "TX_CREATE_BASE" params.TxGasContractCreation
    else if isAATxn then params.TxAAGas
    else GetOr schedule "TX_BASE" params.TxGas in
  let floorGas7623 := GetOr schedule "TX_BASE" params.TxGas in
  let dataLen := Z.of_nat (length data) in
  (* the transactional data *)
  let dataPart (k : Z -> Z -> Z * Z) : Z * Z :=
    if 0 <? dataLen then
      let nz := countNonZero data in
      let nonZeroGas :=
        if isEIP2028 then GetOr schedule "TX_DATA_NONZERO" params.TxDataNonZeroGasEIP2028
        else GetOr schedule "TX_DATA_NONZERO" params.TxDataNonZeroGasFrontier in
      let! product := U64.SafeMul nz nonZeroGas in
      let! gas := U64.SafeAdd gas product in
      let z := U64.sub dataLen nz in
      let! product := U64.SafeMul z (GetOr schedule "TX_DATA_ZERO" params.TxDataZeroGas) in
      let! gas := U64.SafeAdd gas product in
      let initCode (k' : Z -> Z * Z) : Z * Z :=
        if isContractCreation && isEIP3860 then
          let numWords := intrinsicToWordSize dataLen in
          let! product := U64.SafeMul numWords
                            (GetOr schedule "TX_INIT_CODE_WORD" params.InitCodeWordGas) in
          let! gas := U64.SafeAdd gas product in
          k' gas
        else k' gas in
      initCode (fun gas =>
        if isEIP7623 then
          let tokenLen := U64.add dataLen (U64.mul 3 nz) in
          let! dataGas := U64.SafeMul tokenLen
                            (GetOr schedule "TX_FLOOR_PER_TOKEN" params.TxTotalCostFloorPerToken) in
          let! floorGas7623 := U64.SafeAdd floorGas7623 dataGas in
          k gas floorGas7623
        else k gas floorGas7623)
    else k gas floorGas7623 in
  dataPart (fun gas floorGas7623 =>
    (* the access list *)
    let accessPart (k : Z -> Z * Z) : Z * Z :=
      if 0 <? accessListLen then
        let! product := U64.SafeMul accessListLen
                          (GetOr schedule "TX_ACCESS_LIST_ADDR" params.TxAccessListAddressGas) in
        let! gas := U64.SafeAdd gas product in
        let! product := U64.SafeMul storageKeysLen
                          (GetOr schedule "TX_ACCESS_LIST_KEY" params.TxAccessListStorageKeyGas) in
        let! gas := U64.SafeAdd gas product in
        k gas
      else k gas in
    accessPart (fun gas =>
      (* the authorizations *)
      let! product := U64.SafeMul authorizationsLen
                        (GetOr schedule "TX_AUTH_COST" params.PerEmptyAccountCost) in
      let! gas := U64.SafeAdd gas product in
      (gas, floorGas7623))).

Example intrinsic_plain_transfer :
  CalcCustomIntrinsicGas None [] 0 0 false true true true true false 0 = (21000, 21000).
Proof. reflexivity. Qed.

Example intrinsic_data :
  CalcCustomIntrinsicGas None [Byte.x01; Byte.x00] 1 2 false true true true true false 1
  = (21000 + 16 + 4 + 2400 + 2 * 1900 + 25000, 21000 + (2 + 3) * 10).
Proof. reflexivity. Qed.

(** ** Errors of the dynamic-gas functions *)

(** [vm.ErrOutOfGas], [vm.ErrGasUintOverflow], an [errors.New] message, and
    an error returned by a state read ([Empty], [Exist]). *)
Inductive GasError :=
| ErrOutOfGas
| ErrGasUintOverflow
| ErrMsg (msg : string)
| ErrStateRead.

(** The [(uint64, error)] pair returned by a dynamic-gas function. *)
Definition GasResult := (Z * option GasError)%type.

(** ** SSTORE dynamic gas (node/xatu/datasource.go) *)

Record sstoreGasParams := {
  coldSloadCost : Z;
  warmReadCost : Z;
  setGas : Z;
  resetGas : Z;
  clearingRefund : Z;
  sentryGas : Z
}.

(** The part of the intra-block state the SSTORE gas function touches: the
    storage-slot access list (pairs of contract address and slot) and the
    refund counter.  [AddRefund] and [SubRefund] act on a [uint64] counter;
    the underflow behaviour of Erigon's [SubRefund] is outside the overlay
    and written here as the wrapping difference. *)
Record IntraBlockState := {
  slotAccessList : gset (Z * Z);
  refundCounter : Z
}.

Definition AddSlotToAccessList (addr slot : Z) (s : IntraBlockState)
    : bool * IntraBlockState :=
  (negb (bool_decide ((addr, slot) ∈ slotAccessList s)),
   {| slotAccessList := {[(addr, slot)]} ∪ slotAccessList s;
      refundCounter := refundCounter s |}).

Definition AddRefund (gas : Z) (s : IntraBlockState) : IntraBlockState :=
  {| slotAccessList := slotAccessList s; refundCounter := U64.add (refundCounter s) gas |}.

Definition SubRefund (gas : Z) (s : IntraBlockState) : IntraBlockState :=
  {| slotAccessList := slotAccessList s; refundCounter := U64.sub (refundCounter s) gas |}.

(** [makeCustomSstoreGas p] applied to one invocation: [addr] is
    [callContext.Address()], [x] and [y] are [Stack.Back(0)] and
    [Stack.Back(1)], [GetState] and [GetCommittedState] read the current and
    the committed storage of [addr]. *)
Definition makeCustomSstoreGas (p : sstoreGasParams)
    (GetState GetCommittedState : Z -> Z) (addr x y scopeGas : Z)
    (s : IntraBlockState) : GasResult * IntraBlockState :=
  if scopeGas <=? sentryGas p then
    ((0, Some (ErrMsg "not enough gas for reentrancy sentry")), s)
  else
    let slot := x in
    let current := GetState slot in
    let '(slotMod, s) := AddSlotToAccessList addr slot s in
    let cost := if slotMod then coldSloadCost p else 0 in
    let value := y in
    if current =? value then ((U64.add cost (warmReadCost p), None), s)
    else
      let original := GetCommittedState slot in
      if original =? current then
        if original =? 0 then ((U64.add cost (setGas p), None), s)
        else
          let s := if value =? 0 then AddRefund (clearingRefund p) s else s in
          ((U64.add cost (safeSub (resetGas p) (coldSloadCost p)), None), s)
      else
        let s :=
          if negb (original =? 0) then
            if current =? 0 then SubRefund (clearingRefund p) s
            else if value =? 0 then AddRefund (clearingRefund p) s
            else s
          else s in
        let s :=
          if original =? value then
            if original =? 0 then AddRefund (safeSub (setGas p) (warmReadCost p)) s
            else
              let resetMinusCold := safeSub (resetGas p) (coldSloadCost p) in
              AddRefund (safeSub resetMinusCold (warmReadCost p)) s
          else s in
        ((U64.add cost (warmReadCost p), None), s).

(** ** Installation of the SSTORE override ([applyOverrides]) *)

(** [CustomGasSchedule] of node/xatu/custom_gas.go, with its [Get] and the
    [has] helper of datasource.go. *)
Record CustomGasSchedule := { CustomOverrides : option (gmap string Z) }.

Definition Get (c : option CustomGasSchedule) (key : string) (defaultVal : Z) : Z :=
  match c with
  | Some s =>
      match CustomOverrides s with
      | Some m => match m !! key with Some v => v | None => defaultVal end
      | None => defaultVal
      end
  | None => defaultVal
  end.

Definition has (c : option CustomGasSchedule) (key : string) : bool :=
  match c with
  | Some s =>
      match CustomOverrides s with
      | Some m => bool_decide (is_Some (m !! key))
      | None => false
      end
  | None => false
  end.

Definition calculateClearingRefund (resetGas coldSloadCost : Z) : Z :=
  if resetGas <? coldSloadCost then 0
  else U64.add (resetGas - coldSloadCost) params.TxAccessListStorageKeyGas.

(** The dynamic-gas slot of a jump-table entry, as a tagged value: the
    SSTORE function with its parameters, or any other function. *)
Inductive DynamicGasFunc :=
| DynSstore (p : sstoreGasParams)
| DynOther (name : string).

Record operation := {
  constantGas : Z;
  dynamicGas : option DynamicGasFunc
}.

Definition SetDynamicGas (f : DynamicGasFunc) (o : operation) : operation :=
  {| constantGas := constantGas o; dynamicGas := Some f |}.

(** The SSTORE step of [applyOverrides] on [jt[vm.SSTORE]] ([None] is a nil
    entry). *)
Definition applySstoreOverride (schedule : option CustomGasSchedule)
    (entry : option operation) : option operation :=
  if has schedule "SSTORE_SET" || has schedule "SSTORE_RESET"
     || has schedule "SLOAD_COLD" || has schedule "SLOAD_WARM" then
    match entry with
    | Some o =>
        let coldSloadCost := Get schedule "SLOAD_COLD" params.ColdSloadCostEIP2929 in
        let warmReadCost := Get schedule "SLOAD_WARM" params.WarmStorageReadCostEIP2929 in
        let setGas := Get schedule "SSTORE_SET" params.SstoreSetGasEIP2200 in
        let resetGas := Get schedule "SSTORE_RESET" params.SstoreResetGasEIP2200 in
        let clearingRefund := calculateClearingRefund resetGas coldSloadCost in
        let p := {| coldSloadCost := coldSloadCost; warmReadCost := warmReadCost;
                    setGas := setGas; resetGas := resetGas;
                    clearingRefund := clearingRefund;
                    sentryGas := params.SstoreSentryGasEIP2200 |} in
        Some (SetDynamicGas (DynSstore p) o)
    | None => None
    end
  else entry.

(** ** CALL-family dynamic gas (node/xatu/datasource.go) *)

Record callGasParams := {
  coldAccessCost : Z;
  warmAccessCost : Z;
  valueXferCost : Z;
  newAccountCost : Z
}.

(** [callContext.Memory]: its length and the memory cost charged so far. *)
Record Memory := { memLen : Z; lastGasCost : Z }.

(** What a CALL gas function mutates: the address access list of the
    intra-block state, [evm.callGasTemp] and the frame's memory record. *)
Record CallState := {
  addressAccessList : gset Z;
  callGasTemp : Z;
  memory : Memory
}.

(** What it only reads: the chain rules, the account predicates of the
    intra-block state (which may fail) and the three top stack words. *)
Record CallEnv := {
  IsSpuriousDragon : bool;
  IsTangerineWhistle : bool;
  EmptyAccount : Z -> option bool;
  ExistAccount : Z -> option bool;
  Back0 : Z;
  Back1 : Z;
  Back2 : Z
}.

(** State and error monad for the gas functions: Go's [return 0, err]
    is [inr err]. *)
Definition GasM (A : Type) := CallState -> (A + GasError) * CallState.

Definition gret {A} (a : A) : GasM A := fun s => (inl a, s).
Definition gfail {A} (e : GasError) : GasM A := fun s => (inr e, s).
Definition gbind {A B} (m : GasM A) (k : A -> GasM B) : GasM B :=
  fun s => match m s with
           | (inl a, s') => k a s'
           | (inr e, s') => (inr e, s')
           end.
Definition gget : GasM CallState := fun s => (inl s, s).
Definition gput (s : CallState) : GasM unit := fun _ => (inl tt, s).

Notation "'gdo' x <- m 'in' k" := (gbind m (fun x => k))
  (at level 200, x name, m at level 100, k at level 200).

(** [math.SafeAdd] followed by [return 0, vm.ErrGasUintOverflow]. *)
Definition safeAddM (a b : Z) : GasM Z :=
  let '(r, overflow) := U64.SafeAdd a b in
  if overflow then gfail ErrGasUintOverflow else gret r.

Definition toWordSize (size : Z) : Z :=
  if U64.MAX - 31 <? size then U64.MAX / 32 + 1 else (size + 31) / 32.

Definition memoryGasCost (newMemSize : Z) : GasM Z :=
  if newMemSize =? 0 then gret 0
  else if 0x1FFFFFFFE0 <? newMemSize then gfail ErrGasUintOverflow
  else
    let newMemSizeWords := toWordSize newMemSize in
    let newMemSize := U64.mul newMemSizeWords 32 in
    gdo s <- gget in
    if memLen (memory s) <? newMemSize then (
      let square := U64.mul newMemSizeWords newMemSizeWords in
      let linCoef := U64.mul newMemSizeWords params.MemoryGas in
      let quadCoef := square / params.QuadCoeffDiv in
      let newTotalFee := U64.add linCoef quadCoef in
      let fee := U64.sub newTotalFee (lastGasCost (memory s)) in
      gdo _ <- gput {| addressAccessList := addressAccessList s;
                    callGasTemp := callGasTemp s;
                    memory := {| memLen := memLen (memory s);
                                 lastGasCost := newTotalFee |} |} in
      gret fee)
    else gret 0.

(** [callGas] (EIP-150 63/64ths rule); [callCost] is a [uint256]. *)
Definition callGas (isEip150 : bool) (availableGas base callCost : Z) : GasResult :=
  let fallback :=
    if negb (callCost <=? U64.MAX) then (0, Some ErrGasUintOverflow)
    else (callCost, None) in
  if isEip150 then
    if availableGas <? base then (0, None)
    else
      let availableGas := availableGas - base in
      let gas := availableGas - availableGas / 64 in
      if negb (callCost <=? U64.MAX) || (gas <? callCost) then (gas, None)
      else fallback
  else fallback.

Definition SetCallGasTemp (g : Z) : GasM unit :=
  gdo s <- gget in
  gput {| addressAccessList := addressAccessList s; callGasTemp := g;
          memory := memory s |}.

(** [callGas] followed by [evm.SetCallGasTemp] and the final [SafeAdd]. *)
Definition childGasM (env : CallEnv) (scopeGas gas : Z) : GasM Z :=
  match callGas (IsTangerineWhistle env) scopeGas gas (Back0 env) with
  | (_, Some e) => gfail e
  | (callGasTemp, None) =>
      gdo _ <- SetCallGasTemp callGasTemp in
      safeAddM gas callGasTemp
  end.

(** [uint256.Bytes20]: the low 160 bits. *)
Definition Bytes20 (v : Z) : Z := v mod 2 ^ 160.

Definition gasCallInner (env : CallEnv) (p : callGasParams) (hasValue : bool)
    (scopeGas memorySize : Z) : GasM Z :=
  let transfersValue := hasValue && negb (Back2 env =? 0) in
  let address := Bytes20 (Back1 env) in
  let newAccount :=
    if IsSpuriousDragon env then
      match EmptyAccount env address with
      | None => None
      | Some empty => Some (if transfersValue && empty then newAccountCost p else 0)
      end
    else
      match ExistAccount env address with
      | None => None
      | Some exists_ => Some (if negb exists_ then newAccountCost p else 0)
      end in
  match newAccount with
  | None => gfail ErrStateRead
  | Some gas =>
      let gas := if transfersValue then U64.add gas (valueXferCost p) else gas in
      gdo memoryGas <- memoryGasCost memorySize in
      gdo gas <- safeAddM gas memoryGas in
      childGasM env scopeGas gas
  end.

Definition gasCallCodeInner (env : CallEnv) (p : callGasParams)
    (scopeGas memorySize : Z) : GasM Z :=
  gdo memoryGas <- memoryGasCost memorySize in
  let gas := if negb (Back2 env =? 0) then valueXferCost p else 0 in
  gdo gas <- safeAddM gas memoryGas in
  childGasM env scopeGas gas.

Definition gasDelegateCallInner (env : CallEnv) (scopeGas memorySize : Z) : GasM Z :=
  gdo gas <- memoryGasCost memorySize in
  childGasM env scopeGas gas.

Definition gasStaticCallInner (env : CallEnv) (scopeGas memorySize : Z) : GasM Z :=
  gdo gas <- memoryGasCost memorySize in
  childGasM env scopeGas gas.

Definition AddAddressToAccessList (addr : Z) : GasM bool :=
  gdo s <- gget in
  gdo _ <- gput {| addressAccessList := {[addr]} ∪ addressAccessList s;
                callGasTemp := callGasTemp s; memory := memory s |} in
  gret (negb (bool_decide (addr ∈ addressAccessList s))).

(** The common outer wrapper of the four [makeCustom...GasEIP2929]
    functions: charge the cold surcharge before the inner calculator. *)
Definition callVariantEIP2929 (coldAccessCost warmAccessCost : Z)
    (inner : Z -> Z -> GasM Z) (env : CallEnv) (scopeGas memorySize : Z) : GasM Z :=
  let addr := Bytes20 (Back1 env) in
  let coldCost := safeSub coldAccessCost warmAccessCost in
  gdo addrMod <- AddAddressToAccessList addr in
  if addrMod then
    if scopeGas <? coldCost then gfail ErrOutOfGas
    else (
      gdo gas <- inner (scopeGas - coldCost) memorySize in
      gret (U64.add gas coldCost))
  else inner scopeGas memorySize.

Definition makeCustomCallGasEIP2929 (p : callGasParams) (hasValue : bool)
    (env : CallEnv) : Z -> Z -> GasM Z :=
  callVariantEIP2929 (coldAccessCost p) (warmAccessCost p)
    (gasCallInner env p hasValue) env.

Definition makeCustomCallCodeGasEIP2929 (p : callGasParams) (env : CallEnv)
    : Z -> Z -> GasM Z :=
  callVariantEIP2929 (coldAccessCost p) (warmAccessCost p)
    (gasCallCodeInner env p) env.

Definition makeCustomDelegateCallGasEIP2929 (coldAccessCost warmAccessCost : Z)
    (env : CallEnv) : Z -> Z -> GasM Z :=
  callVariantEIP2929 coldAccessCost warmAccessCost (gasDelegateCallInner env) env.

Definition makeCustomStaticCallGasEIP2929 (coldAccessCost warmAccessCost : Z)
    (env : CallEnv) : Z -> Z -> GasM Z :=
  callVariantEIP2929 coldAccessCost warmAccessCost (gasStaticCallInner env) env.

Inductive CallOp := CALL | CALLCODE | DELEGATECALL | STATICCALL.

(** The dynamic-gas function [applyOverrides] installs for each CALL-family
    opcode, and the inner calculator it wraps. *)
Definition callDynamicGas (op : CallOp) (p : callGasParams) (env : CallEnv)
    : Z -> Z -> GasM Z :=
  match op with
  | CALL => makeCustomCallGasEIP2929 p true env
  | CALLCODE => makeCustomCallCodeGasEIP2929 p env
  | DELEGATECALL => makeCustomDelegateCallGasEIP2929 (coldAccessCost p) (warmAccessCost p) env
  | STATICCALL => makeCustomStaticCallGasEIP2929 (coldAccessCost p) (warmAccessCost p) env
  end.

Definition callInner (op : CallOp) (p : callGasParams) (env : CallEnv)
    : Z -> Z -> GasM Z :=
  match op with
  | CALL => gasCallInner env p true
  | CALLCODE => gasCallCodeInner env p
  | DELEGATECALL => gasDelegateCallInner env
  | STATICCALL => gasStaticCallInner env
  end.

(** ** Structured-log tracer (node/xatu/tracer.go) *)

(** [execution.StructLog].  [Op] keeps the opcode byte (the mnemonic is
    [opcodeStrings[opcode]]); [CallToAddress] keeps the 20-byte value that
    the tracer hex-encodes. *)
Record StructLog := {
  PC : Z;
  Op : Z;
  Gas : Z;
  GasCost : Z;
  GasUsed : Z;
  Depth : nat;
  CallToAddress : option Z;
  ReturnData : option (list Byte.byte);
  Refund : option Z;
  Error : option string
}.

Definition setGasUsed (g : Z) (l : StructLog) : StructLog :=
  {| PC := PC l; Op := Op l; Gas := Gas l; GasCost := GasCost l; GasUsed := g;
     Depth := Depth l; CallToAddress := CallToAddress l; ReturnData := ReturnData l;
     Refund := Refund l; Error := Error l |}.

Definition setCallToAddress (a : Z) (l : StructLog) : StructLog :=
  {| PC := PC l; Op := Op l; Gas := Gas l; GasCost := GasCost l; GasUsed := GasUsed l;
     Depth := Depth l; CallToAddress := Some a; ReturnData := ReturnData l;
     Refund := Refund l; Error := Error l |}.

Record pendingCreate := { logIndex : nat; pcDepth : nat }.

(** The tracer's fields.  [hasEnv] is [t.env != nil]; [pendingCreates]
    lists the Go slice from its last element (the top) down. *)
Record StructLogTracer := {
  EnableReturnData : bool;
  logs : list StructLog;
  output : list Byte.byte;
  err : option string;
  hasEnv : bool;
  gasUsed : Z;
  pendingIdx : list Z;
  pendingCreates : list pendingCreate
}.

Definition NewStructLogTracer (enableReturnData : bool) : StructLogTracer :=
  {| EnableReturnData := enableReturnData; logs := []; output := []; err := None;
     hasEnv := false; gasUsed := 0; pendingIdx := []; pendingCreates := [] |}.

Definition opCALL : Z := 0xf1.
Definition opCALLCODE : Z := 0xf2.
Definition opDELEGATECALL : Z := 0xf4.
Definition opSTATICCALL : Z := 0xfa.
Definition opCREATE : Z := 0xf0.
Definition opCREATE2 : Z := 0xf5.

Definition isCallOpcode (op : Z) : bool :=
  (op =? opCALL) || (op =? opSTATICCALL) || (op =? opDELEGATECALL) || (op =? opCALLCODE).

Definition isCreateOpcode (op : Z) : bool := (op =? opCREATE) || (op =? opCREATE2).

(** [for len(t.pendingIdx) <= depth { t.pendingIdx = append(t.pendingIdx, -1) }] *)
Definition growPending (depth : nat) (p : list Z) : list Z :=
  p ++ replicate (S depth - length p) (-1).

(** [for d := len(t.pendingIdx) - 1; d > depth; d-- { t.pendingIdx[d] = -1 }] *)
Definition clearDeeper (depth : nat) (p : list Z) : list Z :=
  imap (fun d v => if Nat.ltb depth d then -1 else v) p.

Definition updatePendingGasUsed (depth : nat) (currentGas : Z)
    (pending : list Z) (logs : list StructLog) : list Z * list StructLog :=
  let pending := clearDeeper depth (growPending depth pending) in
  match pending !! depth with
  | Some prevIdx =>
      if (0 <=? prevIdx) && (prevIdx <? Z.of_nat (length logs)) then
        (pending, alter (fun l => setGasUsed (U64.sub (Gas l) currentGas) l)
                        (Z.to_nat prevIdx) logs)
      else (pending, logs)
  | None => (pending, logs)
  end.

Definition setPendingIdx (depth : nat) (logIdx : Z) (pending : list Z) : list Z :=
  <[depth := logIdx]> (growPending depth pending).

(** [resolvePendingCreates]; [stack] is [scope.StackData()], bottom first.
    ([t.logs[last.logIndex]] is always in range: the index was recorded
    when that log was appended.) *)
Fixpoint resolvePendingCreates (currentDepth : nat) (stack : list Z)
    (pcs : list pendingCreate) (logs : list StructLog)
    : list pendingCreate * list StructLog :=
  match pcs with
  | [] => ([], logs)
  | lastPc :: rest =>
      if Nat.leb currentDepth (pcDepth lastPc) then
        let logs :=
          match last stack with
          | Some top => alter (setCallToAddress (Bytes20 top)) (logIndex lastPc) logs
          | None => logs
          end in
        resolvePendingCreates currentDepth stack rest logs
      else (pcs, logs)
  end.

(** [OnOpcode]; [refundNow] is [t.env.IntraBlockState.GetRefund()] at the
    time of the call. *)
Definition OnOpcode (pc opcode gas cost : Z) (stack : list Z)
    (rData : list Byte.byte) (depth : nat) (e : option string) (refundNow : Z)
    (t : StructLogTracer) : StructLogTracer :=
  let op := opcode in
  let '(pending, logs1) := updatePendingGasUsed depth gas (pendingIdx t) (logs t) in
  let '(pcs, logs2) := resolvePendingCreates depth stack (pendingCreates t) logs1 in
  (* GasUsed defaults to the reported cost; GasCost is then sanitised *)
  let gasCost := if gas <? cost then gas else cost in
  let callTo :=
    if isCallOpcode op && Nat.ltb 1 (length stack) then
      match stack !! (length stack - 2)%nat with
      | Some addr => Some (Bytes20 addr)
      | None => None
      end
    else None in
  let returnData :=
    if EnableReturnData t && negb (Nat.eqb (length rData) 0) then Some rData else None in
  let refund := if hasEnv t then Some refundNow else None in
  let log := {| PC := pc mod 2 ^ 32; Op := opcode; Gas := gas; GasCost := gasCost;
                GasUsed := cost; Depth := depth; CallToAddress := callTo;
                ReturnData := returnData; Refund := refund; Error := e |} in
  let logIdx := length logs2 in
  let pcs := if isCreateOpcode op then {| logIndex := logIdx; pcDepth := depth |} :: pcs
             else pcs in
  {| EnableReturnData := EnableReturnData t; logs := logs2 ++ [log];
     output := output t; err := err t; hasEnv := hasEnv t; gasUsed := gasUsed t;
     pendingIdx := setPendingIdx depth (Z.of_nat logIdx) pending;
     pendingCreates := pcs |}.

(** The hooks the interpreter calls. *)
Inductive TracerEvent :=
| EvTxStart
| EvTxEnd (receiptGasUsed : Z) (e : option string)
| EvExit (depth : nat) (out : list Byte.byte) (e : option string)
| EvOpcode (pc opcode gas cost : Z) (stack : list Z) (rData : list Byte.byte)
           (depth : nat) (e : option string) (refundNow : Z).

Definition OnTxStart (t : StructLogTracer) : StructLogTracer :=
  {| EnableReturnData := EnableReturnData t; logs := logs t; output := output t;
     err := err t; hasEnv := true; gasUsed := gasUsed t; pendingIdx := pendingIdx t;
     pendingCreates := pendingCreates t |}.

Definition OnTxEnd (receiptGasUsed : Z) (e : option string) (t : StructLogTracer)
    : StructLogTracer :=
  match e with
  | Some _ =>
      {| EnableReturnData := EnableReturnData t; logs := logs t; output := output t;
         err := match err t with None => e | Some _ => err t end; hasEnv := hasEnv t;
         gasUsed := gasUsed t; pendingIdx := pendingIdx t;
         pendingCreates := pendingCreates t |}
  | None =>
      {| EnableReturnData := EnableReturnData t; logs := logs t; output := output t;
         err := err t; hasEnv := hasEnv t; gasUsed := receiptGasUsed;
         pendingIdx := pendingIdx t; pendingCreates := pendingCreates t |}
  end.

Definition OnExit (depth : nat) (out : list Byte.byte) (e : option string)
    (t : StructLogTracer) : StructLogTracer :=
  if negb (Nat.eqb depth 0) then t
  else {| EnableReturnData := EnableReturnData t; logs := logs t; output := out;
          err := e; hasEnv := hasEnv t; gasUsed := gasUsed t;
          pendingIdx := pendingIdx t; pendingCreates := pendingCreates t |}.

Definition tracerStep (t : StructLogTracer) (ev : TracerEvent) : StructLogTracer :=
  match ev with
  | EvTxStart => OnTxStart t
  | EvTxEnd g e => OnTxEnd g e t
  | EvExit d o e => OnExit d o e t
  | EvOpcode pc op gas cost stack rData depth e refundNow =>
      OnOpcode pc op gas cost stack rData depth e refundNow t
  end.

(** The tracer after a sequence of hook calls, from [NewStructLogTracer]. *)
Definition runTracer (cfgReturnData : bool) (evs : list TracerEvent) : StructLogTracer :=
  fold_left tracerStep evs (NewStructLogTracer cfgReturnData).

(** The hook arguments are Go [uint64] values. *)
Definition event_wf (ev : TracerEvent) : Prop :=
  match ev with
  | EvOpcode _ _ gas cost _ _ _ _ _ => U64.valid gas /\ U64.valid cost
  | _ => True
  end.

(** TestGasUsedAcrossDepths of tracer_test.go. *)
Example tracer_across_depths :
  map GasUsed (logs (runTracer false
    [EvOpcode 0 opCALL 10000 100 [] [] 1 None 0;
     EvOpcode 1 0x01 9000 50 [] [] 2 None 0;
     EvOpcode 2 0x02 8950 30 [] [] 2 None 0;
     EvOpcode 3 0x50 8900 20 [] [] 1 None 0])) = [1100; 50; 30; 20].
Proof. vm_compute. reflexivity. Qed.

(** ** Schedule predicates and conversion (custom_gas.go, intrinsic_gas_override.go) *)

Definition intrinsicKeys : list string :=
  ["TX_BASE"; "TX_CREATE_BASE"; "TX_DATA_ZERO"; "TX_DATA_NONZERO";
   "TX_ACCESS_LIST_ADDR"; "TX_ACCESS_LIST_KEY"; "TX_INIT_CODE_WORD";
   "TX_FLOOR_PER_TOKEN"; "TX_AUTH_COST"].

(** The [HasIntrinsicOverrides] method of [GasSchedule]. *)
Definition HasIntrinsicOverrides (g : option GasSchedule) : bool :=
  match g with
  | Some s =>
      match Overrides s with
      | Some m => existsb (fun key => bool_decide (is_Some (m !! key))) intrinsicKeys
      | None => false
      end
  | None => false
  end.

(** [c != nil && len(c.Overrides) > 0]; a nil map has length 0. *)
Definition HasOverrides (c : option CustomGasSchedule) : bool :=
  match c with
  | Some s =>
      match CustomOverrides s with
      | Some m => Nat.ltb 0 (size m)
      | None => false
      end
  | None => false
  end.

(** [ToVMGasSchedule]: nil for a nil or empty schedule, otherwise a
    [vm.GasSchedule] sharing the same map. *)
Definition ToVMGasSchedule (c : option CustomGasSchedule) : option GasSchedule :=
  match c with
  | Some s =>
      match CustomOverrides s with
      | Some m => if Nat.eqb (size m) 0 then None else Some {| Overrides := Some m |}
      | None => None
      end
  | None => None
  end.

(** ** Other dynamic-gas functions of node/xatu/datasource.go *)

(** [makeCustomSloadGas coldCost warmCost] applied to one invocation;
    [loc] is [Stack.Back(0)] and [addr] is [callContext.Address()]. *)
Definition makeCustomSloadGas (coldCost warmCost : Z) (addr loc : Z)
    (s : IntraBlockState) : GasResult * IntraBlockState :=
  let '(slotMod, s) := AddSlotToAccessList addr loc s in
  if slotMod then ((coldCost, None), s) else ((warmCost, None), s).

(** [Uint64WithOverflow] of a [uint256]: its low 64 bits, and whether it
    does not fit in a [uint64]. *)
Definition Uint64WithOverflow (v : Z) : Z * bool := (v mod 2 ^ 64, 2 ^ 64 <=? v).

(** [uint256.Int.BitLen] and [common.BitLenToByteLen]. *)
Definition BitLen (v : Z) : Z := if v =? 0 then 0 else Z.log2 v + 1.

Definition BitLenToByteLen (bitLen : Z) : Z := (bitLen + 7) / 8.

(** In the functions below [Back n] is [callContext.Stack.Back(n)], a
    [uint256]. *)
Definition makeCustomExpGas (baseGas byteGas : Z) (Back : nat -> Z)
    (scopeGas memorySize : Z) : GasM Z :=
  let expByteLen := BitLenToByteLen (BitLen (Back 1%nat)) in
  (* no overflow check on the product *)
  let gas := U64.mul expByteLen byteGas in
  safeAddM gas baseGas.

Definition makeCustomKeccak256Gas (wordGas : Z) (Back : nat -> Z)
    (scopeGas memorySize : Z) : GasM Z :=
  gdo gas <- memoryGasCost memorySize in
  let '(wordSize, overflow) := Uint64WithOverflow (Back 1%nat) in
  if overflow then gfail ErrGasUintOverflow
  else
    let '(wordSize, overflow) := U64.SafeMul (toWordSize wordSize) wordGas in
    if overflow then gfail ErrGasUintOverflow
    else safeAddM gas wordSize.

Definition makeCustomLogGas (numTopics baseGas topicGas dataGas : Z) (Back : nat -> Z)
    (scopeGas memorySize : Z) : GasM Z :=
  let '(requestedSize, overflow) := Uint64WithOverflow (Back 1%nat) in
  if overflow then gfail ErrGasUintOverflow
  else
    gdo gas <- memoryGasCost memorySize in
    gdo gas <- safeAddM gas baseGas in
    gdo gas <- safeAddM gas (U64.mul numTopics topicGas) in
    let '(memorySizeGas, overflow) := U64.SafeMul requestedSize dataGas in
    if overflow then gfail ErrGasUintOverflow
    else safeAddM gas memorySizeGas.

Definition makeCustomCopyGas (stackpos : nat) (copyGas : Z) (Back : nat -> Z)
    (scopeGas memorySize : Z) : GasM Z :=
  gdo gas <- memoryGasCost memorySize in
  let '(words, overflow) := Uint64WithOverflow (Back stackpos) in
  if overflow then gfail ErrGasUintOverflow
  else
    let '(words, overflow) := U64.SafeMul (toWordSize words) copyGas in
    if overflow then gfail ErrGasUintOverflow
    else safeAddM gas words.

(** ** Trace result (node/xatu/tracer.go) *)

(** [execution.TraceTransaction]: [TxGas] is its [Gas] field and
    [ReturnValue] keeps the bytes that [GetTraceTransaction] hex-encodes. *)
Record TraceTransaction := {
  TxGas : Z;
  Failed : bool;
  Structlogs : list StructLog;
  ReturnValue : option (list Byte.byte)
}.

Definition GetTraceTransaction (t : StructLogTracer) : TraceTransaction :=
  {| TxGas := gasUsed t; Failed := match err t with Some _ => true | None => false end; Structlogs := logs t;
     ReturnValue := if Nat.ltb 0 (length (output t)) then Some (output t) else None |}.

(** ** Jump-table overrides ([applyOverrides], [BuildCustomJumpTable]) *)

(** The dynamic-gas function of a jump-table entry: the base table's own
    function, or one of the functions [applyOverrides] installs, with its
    parameters. *)
Inductive CustomDynGas :=
| BaseDynamicGas (name : string)
| SloadGas (coldCost warmCost : Z)
| SstoreGas (p : sstoreGasParams)
| ExpDynGas (baseGas byteGas : Z)
| Keccak256DynGas (wordGas : Z)
| LogDynGas (numTopics baseGas topicGas dataGas : Z)
| CopyDynGas (stackpos : nat) (copyGas : Z)
| CallGasEIP2929 (p : callGasParams)
| CallCodeGasEIP2929 (p : callGasParams)
| DelegateCallGasEIP2929 (coldAccessCost warmAccessCost : Z)
| StaticCallGasEIP2929 (coldAccessCost warmAccessCost : Z).

Record jtOperation := {
  opConstantGas : Z;
  opDynamicGas : option CustomDynGas
}.

(** [vm.JumpTable], an array [[256]*operation] indexed by the opcode byte:
    a nil entry is absent.  The entries of the table returned by
    [vm.GetBaseJumpTable] are distinct [operation] values. *)
Definition JumpTable := gmap Z jtOperation.

(** [if jt[op] != nil { jt[op].SetConstantGas(g) }] *)
Definition SetConstantGasAt (op g : Z) (jt : JumpTable) : JumpTable :=
  match jt !! op with
  | Some o => <[op := {| opConstantGas := g; opDynamicGas := opDynamicGas o |}]> jt
  | None => jt
  end.

(** [if jt[op] != nil { jt[op].SetDynamicGas(f) }] *)
Definition SetDynamicGasAt (op : Z) (f : CustomDynGas) (jt : JumpTable) : JumpTable :=
  match jt !! op with
  | Some o => <[op := {| opConstantGas := opConstantGas o; opDynamicGas := Some f |}]> jt
  | None => jt
  end.

Definition opEXP : Z := 0x0a.
Definition opKECCAK256 : Z := 0x20.
Definition opBALANCE : Z := 0x31.
Definition opCALLDATACOPY : Z := 0x37.
Definition opCODECOPY : Z := 0x39.
Definition opEXTCODESIZE : Z := 0x3b.
Definition opEXTCODECOPY : Z := 0x3c.
Definition opRETURNDATACOPY : Z := 0x3e.
Definition opEXTCODEHASH : Z := 0x3f.
Definition opSLOAD : Z := 0x54.
Definition opSSTORE : Z := 0x55.
Definition opMCOPY : Z := 0x5e.
Definition opLOG0 : Z := 0xa0.
Definition opLOG1 : Z := 0xa1.
Definition opLOG2 : Z := 0xa2.
Definition opLOG3 : Z := 0xa3.
Definition opLOG4 : Z := 0xa4.
Definition opSELFDESTRUCT : Z := 0xff.

(** The entries of [opcodeMap], with the byte values of Erigon's [vm]
    opcode constants. *)
Definition opcodeList : list (string * Z) :=
  [("STOP", 0x00); ("ADD", 0x01); ("MUL", 0x02); ("SUB", 0x03); ("DIV", 0x04);
   ("SDIV", 0x05); ("MOD", 0x06); ("SMOD", 0x07); ("ADDMOD", 0x08); ("MULMOD", 0x09);
   ("EXP", 0x0a); ("SIGNEXTEND", 0x0b); ("LT", 0x10); ("GT", 0x11); ("SLT", 0x12);
   ("SGT", 0x13); ("EQ", 0x14); ("ISZERO", 0x15); ("AND", 0x16); ("OR", 0x17);
   ("XOR", 0x18); ("NOT", 0x19); ("BYTE", 0x1a); ("SHL", 0x1b); ("SHR", 0x1c);
   ("SAR", 0x1d); ("CLZ", 0x1e); ("KECCAK256", 0x20); ("ADDRESS", 0x30);
   ("BALANCE", 0x31); ("ORIGIN", 0x32); ("CALLER", 0x33); ("CALLVALUE", 0x34);
   ("CALLDATALOAD", 0x35); ("CALLDATASIZE", 0x36); ("CALLDATACOPY", 0x37);
   ("CODESIZE", 0x38); ("CODECOPY", 0x39); ("GASPRICE", 0x3a); ("EXTCODESIZE", 0x3b);
   ("EXTCODECOPY", 0x3c); ("RETURNDATASIZE", 0x3d); ("RETURNDATACOPY", 0x3e);
   ("EXTCODEHASH", 0x3f); ("BLOCKHASH", 0x40); ("COINBASE", 0x41); ("TIMESTAMP", 0x42);
   ("NUMBER", 0x43); ("DIFFICULTY", 0x44); ("GASLIMIT", 0x45); ("CHAINID", 0x46);
   ("SELFBALANCE", 0x47); ("BASEFEE", 0x48); ("BLOBHASH", 0x49); ("BLOBBASEFEE", 0x4a);
   ("POP", 0x50); ("MLOAD", 0x51); ("MSTORE", 0x52); ("MSTORE8", 0x53); ("SLOAD", 0x54);
   ("SSTORE", 0x55); ("JUMP", 0x56); ("JUMPI", 0x57); ("PC", 0x58); ("MSIZE", 0x59);
   ("GAS", 0x5a); ("JUMPDEST", 0x5b); ("TLOAD", 0x5c); ("TSTORE", 0x5d); ("MCOPY", 0x5e);
   ("PUSH0", 0x5f); ("PUSH1", 0x60); ("PUSH2", 0x61); ("PUSH3", 0x62); ("PUSH4", 0x63);
   ("PUSH5", 0x64); ("PUSH6", 0x65); ("PUSH7", 0x66); ("PUSH8", 0x67); ("PUSH9", 0x68);
   ("PUSH10", 0x69); ("PUSH11", 0x6a); ("PUSH12", 0x6b); ("PUSH13", 0x6c);
   ("PUSH14", 0x6d); ("PUSH15", 0x6e); ("PUSH16", 0x6f); ("PUSH17", 0x70);
   ("PUSH18", 0x71); ("PUSH19", 0x72); ("PUSH20", 0x73); ("PUSH21", 0x74);
   ("PUSH22", 0x75); ("PUSH23", 0x76); ("PUSH24", 0x77); ("PUSH25", 0x78);
   ("PUSH26", 0x79); ("PUSH27", 0x7a); ("PUSH28", 0x7b); ("PUSH29", 0x7c);
   ("PUSH30", 0x7d); ("PUSH31", 0x7e); ("PUSH32", 0x7f);
   ("DUP1", 0x80); ("DUP2", 0x81); ("DUP3", 0x82); ("DUP4", 0x83); ("DUP5", 0x84);
   ("DUP6", 0x85); ("DUP7", 0x86); ("DUP8", 0x87); ("DUP9", 0x88); ("DUP10", 0x89);
   ("DUP11", 0x8a); ("DUP12", 0x8b); ("DUP13", 0x8c); ("DUP14", 0x8d); ("DUP15", 0x8e);
   ("DUP16", 0x8f);
   ("SWAP1", 0x90); ("SWAP2", 0x91); ("SWAP3", 0x92); ("SWAP4", 0x93); ("SWAP5", 0x94);
   ("SWAP6", 0x95); ("SWAP7", 0x96); ("SWAP8", 0x97); ("SWAP9", 0x98); ("SWAP10", 0x99);
   ("SWAP11", 0x9a); ("SWAP12", 0x9b); ("SWAP13", 0x9c); ("SWAP14", 0x9d);
   ("SWAP15", 0x9e); ("SWAP16", 0x9f);
   ("LOG0", 0xa0); ("LOG1", 0xa1); ("LOG2", 0xa2); ("LOG3", 0xa3); ("LOG4", 0xa4);
   ("CREATE", 0xf0); ("CALL", 0xf1); ("CALLCODE", 0xf2); ("RETURN", 0xf3);
   ("DELEGATECALL", 0xf4); ("CREATE2", 0xf5); ("STATICCALL", 0xfa); ("REVERT", 0xfd);
   ("INVALID", 0xfe); ("SELFDESTRUCT", 0xff);
   ("DUPN", 0xe6); ("SWAPN", 0xe7); ("EXCHANGE", 0xe8)].

Definition opcodeMap : gmap string Z := list_to_map opcodeList.

Definition opcodeFromString (name : string) : option Z := opcodeMap !! name.

(** The [range schedule.Overrides] loop setting constant gas by opcode
    name. *)
Definition constantGasLoop (overrides : list (string * Z)) (jt : JumpTable) : JumpTable :=
  fold_left (fun jt '(opcodeName, gas) =>
    match opcodeFromString opcodeName with
    | Some opcode => SetConstantGasAt opcode gas jt
    | None => jt
    end) overrides jt.

(** The blocks of [applyOverrides] after its constant-gas loop, in source
    order; each one is an [if has(schedule, ...)] statement of the source. *)

(** The SLOAD block. *)
Definition overrideSload (schedule : option CustomGasSchedule) (jt : JumpTable)
    : JumpTable :=
  if has schedule "SLOAD_COLD" || has schedule "SLOAD_WARM" then
    SetDynamicGasAt opSLOAD
      (SloadGas (Get schedule "SLOAD_COLD" params.ColdSloadCostEIP2929)
                (Get schedule "SLOAD_WARM" params.WarmStorageReadCostEIP2929)) jt
  else jt.

(** The SSTORE block. *)
Definition overrideSstore (schedule : option CustomGasSchedule) (jt : JumpTable)
    : JumpTable :=
  if has schedule "SSTORE_SET" || has schedule "SSTORE_RESET"
     || has schedule "SLOAD_COLD" || has schedule "SLOAD_WARM" then
    let coldSloadCost := Get schedule "SLOAD_COLD" params.ColdSloadCostEIP2929 in
    let warmReadCost := Get schedule "SLOAD_WARM" params.WarmStorageReadCostEIP2929 in
    let setGas := Get schedule "SSTORE_SET" params.SstoreSetGasEIP2200 in
    let resetGas := Get schedule "SSTORE_RESET" params.SstoreResetGasEIP2200 in
    let clearingRefund := calculateClearingRefund resetGas coldSloadCost in
    SetDynamicGasAt opSSTORE
      (SstoreGas {| coldSloadCost := coldSloadCost; warmReadCost := warmReadCost;
                    setGas := setGas; resetGas := resetGas;
                    clearingRefund := clearingRefund;
                    sentryGas := params.SstoreSentryGasEIP2200 |}) jt
  else jt.

(** The EXP block. *)
Definition overrideExp (schedule : option CustomGasSchedule) (jt : JumpTable)
    : JumpTable :=
  if has schedule "EXP" || has schedule "EXP_BYTE" then
    SetDynamicGasAt opEXP
      (ExpDynGas (Get schedule "EXP" params.ExpGas)
                 (Get schedule "EXP_BYTE" params.ExpByteEIP160)) jt
  else jt.

(** The KECCAK256 base block. *)
Definition overrideKeccak256 (schedule : option CustomGasSchedule) (jt : JumpTable)
    : JumpTable :=
  if has schedule "KECCAK256" then
    SetConstantGasAt opKECCAK256 (Get schedule "KECCAK256" params.Keccak256Gas) jt
  else jt.

(** The KECCAK256 word block. *)
Definition overrideKeccak256Word (schedule : option CustomGasSchedule) (jt : JumpTable)
    : JumpTable :=
  if has schedule "KECCAK256_WORD" then
    SetDynamicGasAt opKECCAK256
      (Keccak256DynGas (Get schedule "KECCAK256_WORD" params.Keccak256WordGas)) jt
  else jt.

(** The LOG0-4 block. *)
Definition overrideLog (schedule : option CustomGasSchedule) (jt : JumpTable)
    : JumpTable :=
  if has schedule "LOG" || has schedule "LOG_TOPIC" || has schedule "LOG_DATA" then
    let baseGas := Get schedule "LOG" params.LogGas in
    let topicGas := Get schedule "LOG_TOPIC" params.LogTopicGas in
    let dataGas := Get schedule "LOG_DATA" params.LogDataGas in
    let jt := SetDynamicGasAt opLOG0 (LogDynGas 0 baseGas topicGas dataGas) jt in
    let jt := SetDynamicGasAt opLOG1 (LogDynGas 1 baseGas topicGas dataGas) jt in
    let jt := SetDynamicGasAt opLOG2 (LogDynGas 2 baseGas topicGas dataGas) jt in
    let jt := SetDynamicGasAt opLOG3 (LogDynGas 3 baseGas topicGas dataGas) jt in
    SetDynamicGasAt opLOG4 (LogDynGas 4 baseGas topicGas dataGas) jt
  else jt.

(** The COPY block. *)
Definition overrideCopy (schedule : option CustomGasSchedule) (jt : JumpTable)
    : JumpTable :=
  if has schedule "COPY" then
    let copyGas := Get schedule "COPY" params.CopyGas in
    let jt := SetDynamicGasAt opCALLDATACOPY (CopyDynGas 2 copyGas) jt in
    let jt := SetDynamicGasAt opCODECOPY (CopyDynGas 2 copyGas) jt in
    let jt := SetDynamicGasAt opRETURNDATACOPY (CopyDynGas 2 copyGas) jt in
    let jt := SetDynamicGasAt opEXTCODECOPY (CopyDynGas 3 copyGas) jt in
    SetDynamicGasAt opMCOPY (CopyDynGas 2 copyGas) jt
  else jt.

(** The CREATE block. *)
Definition overrideCreate (schedule : option CustomGasSchedule) (jt : JumpTable)
    : JumpTable :=
  if has schedule "CREATE" then
    SetConstantGasAt opCREATE (Get schedule "CREATE" params.CreateGas) jt
  else jt.

(** The CREATE2 block. *)
Definition overrideCreate2 (schedule : option CustomGasSchedule) (jt : JumpTable)
    : JumpTable :=
  if has schedule "CREATE2" then
    SetConstantGasAt opCREATE2 (Get schedule "CREATE2" params.Create2Gas) jt
  else jt.

(** The CALL-family block. *)
Definition overrideCallFamily (schedule : option CustomGasSchedule) (jt : JumpTable)
    : JumpTable :=
  if has schedule "CALL_COLD" || has schedule "CALL_WARM"
     || has schedule "CALL_VALUE_XFER" || has schedule "CALL_NEW_ACCOUNT" then
    let callParams :=
      {| coldAccessCost := Get schedule "CALL_COLD" params.ColdAccountAccessCostEIP2929;
         warmAccessCost := Get schedule "CALL_WARM" params.WarmStorageReadCostEIP2929;
         valueXferCost := Get schedule "CALL_VALUE_XFER" params.CallValueTransferGas;
         newAccountCost := Get schedule "CALL_NEW_ACCOUNT" params.CallNewAccountGas |} in
    let jt := SetDynamicGasAt opCALL (CallGasEIP2929 callParams)
                (SetConstantGasAt opCALL (warmAccessCost callParams) jt) in
    let jt := SetDynamicGasAt opCALLCODE (CallCodeGasEIP2929 callParams)
                (SetConstantGasAt opCALLCODE (warmAccessCost callParams) jt) in
    let jt := SetDynamicGasAt opDELEGATECALL
                (DelegateCallGasEIP2929 (coldAccessCost callParams) (warmAccessCost callParams))
                (SetConstantGasAt opDELEGATECALL (warmAccessCost callParams) jt) in
    SetDynamicGasAt opSTATICCALL
      (StaticCallGasEIP2929 (coldAccessCost callParams) (warmAccessCost callParams))
      (SetConstantGasAt opSTATICCALL (warmAccessCost callParams) jt)
  else jt.

(** The BALANCE block. *)
Definition overrideBalance (schedule : option CustomGasSchedule) (jt : JumpTable)
    : JumpTable :=
  if has schedule "BALANCE" then
    SetConstantGasAt opBALANCE (Get schedule "BALANCE" params.BalanceGasEIP1884) jt
  else jt.

(** The EXTCODESIZE block. *)
Definition overrideExtcodesize (schedule : option CustomGasSchedule) (jt : JumpTable)
    : JumpTable :=
  if has schedule "EXTCODESIZE" then
    SetConstantGasAt opEXTCODESIZE (Get schedule "EXTCODESIZE" params.ExtcodeSizeGasEIP150) jt
  else jt.

(** The EXTCODECOPY block. *)
Definition overrideExtcodecopy (schedule : option CustomGasSchedule) (jt : JumpTable)
    : JumpTable :=
  if has schedule "EXTCODECOPY" then
    SetConstantGasAt opEXTCODECOPY (Get schedule "EXTCODECOPY" params.ExtcodeCopyBaseEIP150) jt
  else jt.

(** The EXTCODEHASH block. *)
Definition overrideExtcodehash (schedule : option CustomGasSchedule) (jt : JumpTable)
    : JumpTable :=
  if has schedule "EXTCODEHASH" then
    SetConstantGasAt opEXTCODEHASH (Get schedule "EXTCODEHASH" params.ExtcodeHashGasEIP1884) jt
  else jt.

(** The SELFDESTRUCT block. *)
Definition overrideSelfdestruct (schedule : option CustomGasSchedule) (jt : JumpTable)
    : JumpTable :=
  if has schedule "SELFDESTRUCT" then
    SetConstantGasAt opSELFDESTRUCT (Get schedule "SELFDESTRUCT" params.SelfdestructGasEIP150) jt
  else jt.

(** [applyOverrides]; [order] lists the entries of [schedule.Overrides] in
    the order [range] visits them, which Go leaves unspecified. *)
Definition applyOverrides (order : list (string * Z))
    (schedule : option CustomGasSchedule) (jt : JumpTable) : JumpTable :=
  let jt := constantGasLoop order jt in
  let jt := overrideSload schedule jt in
  let jt := overrideSstore schedule jt in
  let jt := overrideExp schedule jt in
  let jt := overrideKeccak256 schedule jt in
  let jt := overrideKeccak256Word schedule jt in
  let jt := overrideLog schedule jt in
  let jt := overrideCopy schedule jt in
  let jt := overrideCreate schedule jt in
  let jt := overrideCreate2 schedule jt in
  let jt := overrideCallFamily schedule jt in
  let jt := overrideBalance schedule jt in
  let jt := overrideExtcodesize schedule jt in
  let jt := overrideExtcodecopy schedule jt in
  let jt := overrideExtcodehash schedule jt in
  overrideSelfdestruct schedule jt.

(** The map [range schedule.Overrides] iterates over (none for a nil
    schedule or map). *)
Definition overridesOf (schedule : option CustomGasSchedule) : gmap string Z :=
  match schedule with
  | Some s => match CustomOverrides s with Some m => m | None => ∅ end
  | None => ∅
  end.

(** [BuildCustomJumpTable]; [baseJT] is [vm.GetBaseJumpTable(chainRules)]
    and [order] the iteration order of the overrides map. *)
Definition BuildCustomJumpTable (order : list (string * Z)) (baseJT : JumpTable)
    (schedule : option CustomGasSchedule) : JumpTable :=
  if negb (HasOverrides schedule) then baseJT
  else applyOverrides order schedule baseJT.

(** ** Definitions used to state and exercise the properties below *)

Definition memoryOnlySchedule : option GasSchedule :=
  Some {| Overrides := Some (<["MEMORY" := 1]> (<["SLOAD_COLD" := 5]> ∅)) |}.

(** Gas computations that leave the address access list alone. *)
Definition keepsAccessList {A} (m : GasM A) : Prop :=
  forall s, addressAccessList (snd (m s)) = addressAccessList s.

Definition logView (l : StructLog) :=
  (PC l, Op l, Gas l, GasCost l, Depth l, ReturnData l, Refund l, Error l).

Definition isOpcodeEvent (ev : TracerEvent) : bool :=
  match ev with EvOpcode _ _ _ _ _ _ _ _ _ => true | _ => false end.

Definition isErr (e : option string) : bool :=
  match e with Some _ => true | None => false end.

(** The opcode name [opcodeMap] gives for byte [op] (its inverse). *)
Definition opcodeNameOf (op : Z) : option string :=
  fst <$> List.find (fun p => snd p =? op) opcodeList.

(** The value the constant-gas loop reads for opcode [op] from the map. *)
Definition opcodeOverride (m : gmap string Z) (op : Z) : option Z :=
  match opcodeNameOf op with Some name => m !! name | None => None end.

Definition setConst (g : Z) (o : jtOperation) : jtOperation :=
  {| opConstantGas := g; opDynamicGas := opDynamicGas o |}.

Definition setDyn (f : CustomDynGas) (o : jtOperation) : jtOperation :=
  {| opConstantGas := opConstantGas o; opDynamicGas := Some f |}.

Definition constOf (jt : JumpTable) (op : Z) : option Z := opConstantGas <$> jt !! op.

(** Opcode names and the compound keys [applyOverrides] reads. *)
Definition compoundGasKeys : list string :=
  ["SLOAD_COLD"; "SLOAD_WARM"; "SSTORE_SET"; "SSTORE_RESET"; "EXP_BYTE";
   "KECCAK256_WORD"; "LOG"; "LOG_TOPIC"; "LOG_DATA"; "COPY"; "CALL_COLD";
   "CALL_WARM"; "CALL_VALUE_XFER"; "CALL_NEW_ACCOUNT"].

Definition emptyCallState : CallState :=
  {| addressAccessList := ∅; callGasTemp := 0; memory := {| memLen := 0; lastGasCost := 0 |} |}.

Definition emptyIntraBlockState : IntraBlockState :=
  {| slotAccessList := ∅; refundCounter := 0 |}.

Definition berlinSstoreParams : sstoreGasParams :=
  {| coldSloadCost := 2100; warmReadCost := 100; setGas := 20000; resetGas := 2900;
     clearingRefund := 4800; sentryGas := 2300 |}.

Definition berlinCallParams : callGasParams :=
  {| coldAccessCost := 2600; warmAccessCost := 100; valueXferCost := 9000;
     newAccountCost := 25000 |}.

Definition staticCallEnv : CallEnv :=
  {| IsSpuriousDragon := true; IsTangerineWhistle := true;
     EmptyAccount := fun _ => Some false; ExistAccount := fun _ => Some true;
     Back0 := 50000; Back1 := 0xcafe; Back2 := 0 |}.

Definition expCallSchedule : option CustomGasSchedule :=
  Some {| CustomOverrides :=
            Some (<["EXP" := 20]> (<["CALL" := 900]> (<["CALL_WARM" := 7]> ∅))) |}.

Definition expCallOrder : list (string * Z) :=
  [("EXP", 20); ("CALL", 900); ("CALL_WARM", 7)].

Definition expCallOrderRev : list (string * Z) :=
  [("CALL_WARM", 7); ("CALL", 900); ("EXP", 20)].

Definition smallJumpTable : JumpTable :=
  list_to_map
    [(opEXP, {| opConstantGas := 10; opDynamicGas := Some (BaseDynamicGas "gasExpEIP160") |});
     (opCALL, {| opConstantGas := 100; opDynamicGas := Some (BaseDynamicGas "gasCallEIP2929") |});
     (opSLOAD, {| opConstantGas := 0; opDynamicGas := Some (BaseDynamicGas "gasSLoadEIP2929") |})].

Definition memoryTxSchedule : option CustomGasSchedule :=
  Some {| CustomOverrides := Some (<["MEMORY" := 1]> (<["TX_BASE" := 0]> ∅)) |}.

Definition memoryTxOrder : list (string * Z) := [("MEMORY", 1); ("TX_BASE", 0)].

(** * Theorems *)

(** ** Gas lookup without a schedule *)

(** C10: [GetOr] on a nil schedule, or on a schedule whose override map
    is nil, returns the default; [PrecompileGasWithOverrides] with a nil
    schedule returns [defaultGas] for every precompile name and input. *)
Theorem absent_schedule_keeps_defaults :
  (forall key d, GetOr None key d = d) /\
  (forall key d, GetOr (Some {| Overrides := None |}) key d = d) /\
  (forall (T1 T2 : list Z) name input defaultGas,
      PrecompileGasWithOverrides T1 T2 None name input defaultGas = defaultGas).
Proof. repeat split; reflexivity. Qed.

(** ** SSTORE reentrancy sentry *)

(** C5: with the sentry of [applyOverrides] (2300), an SSTORE with at most
    2300 gas left fails with "not enough gas for reentrancy sentry", returns
    0 gas and leaves the state untouched; with more than 2300 gas left it
    never fails. *)
Theorem sstore_sentry_boundary :
  forall p GetState GetCommittedState addr x y scopeGas s,
    sentryGas p = params.SstoreSentryGasEIP2200 ->
    (scopeGas <= 2300 ->
       makeCustomSstoreGas p GetState GetCommittedState addr x y scopeGas s
       = ((0, Some (ErrMsg "not enough gas for reentrancy sentry")), s)) /\
    (2300 < scopeGas ->
       snd (fst (makeCustomSstoreGas p GetState GetCommittedState addr x y scopeGas s))
       = None).
Proof.
  intros p GS GC addr x y g s Hs. unfold makeCustomSstoreGas. rewrite Hs.
  unfold params.SstoreSentryGasEIP2200. split; intros Hg.
  - replace (g <=? 2300) with true by lia. reflexivity.
  - replace (g <=? 2300) with false by lia. simpl.
    repeat (case_match; simpl; try reflexivity).
Qed.

Lemma sstore_sentry_boundary_witness :
  sentryGas {| coldSloadCost := 2100; warmReadCost := 100; setGas := 20000;
               resetGas := 5000; clearingRefund := 4800; sentryGas := 2300 |}
    = params.SstoreSentryGasEIP2200 /\
  makeCustomSstoreGas {| coldSloadCost := 2100; warmReadCost := 100; setGas := 20000;
                         resetGas := 5000; clearingRefund := 4800; sentryGas := 2300 |}
    (fun _ => 0) (fun _ => 0) 7 1 1 2300 {| slotAccessList := ∅; refundCounter := 0 |}
  = ((0, Some (ErrMsg "not enough gas for reentrancy sentry")),
     {| slotAccessList := ∅; refundCounter := 0 |}).
Proof.
  split; [reflexivity|].
  apply (sstore_sentry_boundary _ (fun _ => 0) (fun _ => 0) 7 1 1 2300
           {| slotAccessList := ∅; refundCounter := 0 |}); [reflexivity | lia].
Defined.

(** ** BLAKE2F precompile gas *)

(** C6: BLAKE2F gas is 0 unless the input has exactly 213 bytes; for 213
    bytes it is [base + per_round * u32_be(input[0..4])] in uint64
    arithmetic; hence a positive charge implies a 213-byte input, and
    [PrecompileGasWithOverrides] dispatches "BLAKE2F" to this rule. *)
Theorem blake2f_gas_rule :
  forall schedule (input : list Byte.byte),
    (length input <> 213%nat -> precompileBlake2f schedule input = 0) /\
    (length input = 213%nat ->
       precompileBlake2f schedule input
       = U64.add (GetOr schedule "PC_BLAKE2F_BASE" 0)
                 (U64.mul (GetOr schedule "PC_BLAKE2F_PER_ROUND" 1) (Uint32BE input))) /\
    (0 < precompileBlake2f schedule input -> length input = 213%nat) /\
    (forall (T1 T2 : list Z) s d,
       PrecompileGasWithOverrides T1 T2 (Some s) "BLAKE2F" input d
       = precompileBlake2f (Some s) input).
Proof.
  intros schedule input. unfold precompileBlake2f.
  split; [|split; [|split]].
  - intros H. apply Nat.eqb_neq in H. rewrite H. reflexivity.
  - intros H. rewrite H. reflexivity.
  - intros H. destruct (Nat.eqb (length input) 213) eqn:E.
    + apply Nat.eqb_eq. exact E.
    + simpl in H. lia.
  - intros T1 T2 s d. reflexivity.
Qed.

(** The boundary lengths 0, 212, 214 charge nothing; 213 bytes with 12
    rounds charge 12 under the default parameters. *)
Example blake2f_boundaries :
  precompileBlake2f None (repeat Byte.x00 0) = 0 /\
  precompileBlake2f None (repeat Byte.x00 212) = 0 /\
  precompileBlake2f None (repeat Byte.x00 214) = 0 /\
  precompileBlake2f None ([Byte.x00; Byte.x00; Byte.x00; Byte.x0c] ++ repeat Byte.x00 209) = 12.
Proof. vm_compute. repeat split. Qed.

(** ** SSTORE clearing refund *)

Definition resetBelowCold : option CustomGasSchedule :=
  Some {| CustomOverrides := Some (<["SSTORE_RESET" := 1000]> (<["SLOAD_COLD" := 2000]> ∅)) |}.

Definition anySstoreKey (schedule : option CustomGasSchedule) : bool :=
  has schedule "SSTORE_SET" || has schedule "SSTORE_RESET"
  || has schedule "SLOAD_COLD" || has schedule "SLOAD_WARM".

(** C1 (as stated): the refund would be [max(0, reset - cold) + 1900]
    whenever the SSTORE function is installed.  False for
    [{SSTORE_RESET: 1000, SLOAD_COLD: 2000}]: the installed refund is 0. *)
Lemma clearing_refund_not_1900_when_reset_below_cold :
  ~ (forall schedule o, anySstoreKey schedule = true ->
       exists p, applySstoreOverride schedule (Some o) = Some (SetDynamicGas (DynSstore p) o) /\
         clearingRefund p
         = Z.max 0 (Get schedule "SSTORE_RESET" params.SstoreResetGasEIP2200
                    - Get schedule "SLOAD_COLD" params.ColdSloadCostEIP2929) + 1900).
Proof.
  intros H.
  destruct (H resetBelowCold {| constantGas := 0; dynamicGas := None |} eq_refl)
    as [p [Happ Href]].
  vm_compute in Happ. injection Happ as Hp. subst p.
  vm_compute in Href. discriminate.
Qed.

(** C1 (amended): whenever one of SSTORE_SET, SSTORE_RESET, SLOAD_COLD,
    SLOAD_WARM is overridden, the SSTORE entry gets the custom dynamic gas
    with the schedule's parameters, sentry 2300 and clearing refund 0 if
    SSTORE_RESET < SLOAD_COLD, else SSTORE_RESET - SLOAD_COLD + 1900
    (mod 2^64). *)
Theorem sstore_override_clearing_refund :
  forall schedule o, anySstoreKey schedule = true ->
    let cold := Get schedule "SLOAD_COLD" params.ColdSloadCostEIP2929 in
    let warm := Get schedule "SLOAD_WARM" params.WarmStorageReadCostEIP2929 in
    let set := Get schedule "SSTORE_SET" params.SstoreSetGasEIP2200 in
    let reset := Get schedule "SSTORE_RESET" params.SstoreResetGasEIP2200 in
    applySstoreOverride schedule (Some o)
    = Some (SetDynamicGas (DynSstore
         {| coldSloadCost := cold; warmReadCost := warm; setGas := set; resetGas := reset;
            clearingRefund := if reset <? cold then 0 else (reset - cold + 1900) mod 2 ^ 64;
            sentryGas := 2300 |}) o).
Proof.
  intros schedule o H cold warm set reset.
  unfold applySstoreOverride. unfold anySstoreKey in H. rewrite H.
  reflexivity.
Qed.

Lemma sstore_override_clearing_refund_witness :
  anySstoreKey resetBelowCold = true /\
  applySstoreOverride resetBelowCold (Some {| constantGas := 0; dynamicGas := None |})
  = Some (SetDynamicGas (DynSstore
      {| coldSloadCost := 2000; warmReadCost := 100; setGas := 20000; resetGas := 1000;
         clearingRefund := 0; sentryGas := 2300 |}) {| constantGas := 0; dynamicGas := None |}).
Proof.
  split; [vm_compute; reflexivity|].
  exact (sstore_override_clearing_refund resetBelowCold _ eq_refl).
Defined.

(** ** EIP-150 child allocation *)

(** C2 (as stated): the child would get [min(requested, available -
    available/64)] when [available >= base], and 62 at [available = 63],
    [base = 0].  False twice: at [available = 128], [base = 64] [callGas]
    first subtracts [base] and passes 63, not 126; at [available = 63],
    [base = 0] it passes [63 - 63/64 = 63], not 62. *)
Lemma callGas_subtracts_base_first :
  callGas true 128 64 1000 <> (Z.min 1000 (128 - 128 / 64), None) /\
  callGas true 63 0 1000 <> (62, None).
Proof. split; vm_compute; congruence. Qed.

(** C2 (amended): under EIP-150 the child receives 0 if [available < base]
    and otherwise [min(requested, (available - base) - (available - base)/64)]
    for every [uint256] request; with [base = 0], [available = 64] passes 63
    and [available = 63] also passes 63 to any request of at least that much. *)
Theorem callGas_eip150_rule :
  forall available base requested,
    U64.valid available -> 0 <= base -> 0 <= requested ->
    callGas true available base requested
    = if available <? base then (0, None)
      else (Z.min requested ((available - base) - (available - base) / 64), None).
Proof.
  intros a b r [Ha0 Ha1] Hb Hr. unfold callGas, U64.MAX in *.
  destruct (a <? b) eqn:Eab; [reflexivity|].
  apply Z.ltb_ge in Eab.
  assert (Hq : 0 <= (a - b) / 64 <= a - b) by (split; [apply Z.div_pos | apply Z.div_le_upper_bound]; lia).
  destruct (r <=? 2 ^ 64 - 1) eqn:Er; simpl.
  - destruct (a - b - (a - b) / 64 <? r) eqn:E2; simpl.
    + f_equal. apply Z.ltb_lt in E2. lia.
    + f_equal. apply Z.ltb_ge in E2. lia.
  - f_equal. apply Z.leb_gt in Er. lia.
Qed.

Lemma callGas_eip150_rule_witness :
  (U64.valid 64 /\ callGas true 64 0 1000 = (63, None)) /\
  (U64.valid 63 /\ callGas true 63 0 1000 = (63, None)).
Proof.
  split; (split; [unfold U64.valid, U64.MAX; lia|]).
  - rewrite (callGas_eip150_rule 64 0 1000); [reflexivity | unfold U64.valid, U64.MAX; lia | lia | lia].
  - rewrite (callGas_eip150_rule 63 0 1000); [reflexivity | unfold U64.valid, U64.MAX; lia | lia | lia].
Defined.

(** ** Overflow and underflow in the precompile formulas *)

Definition shaPerWordMax : option GasSchedule :=
  Some {| Overrides := Some (<["PC_SHA256_PER_WORD" := U64.MAX]> ∅) |}.

(** C3 (as stated): the precompile formula would signal overflow.  With
    [PC_SHA256_PER_WORD = 2^64 - 1] and a 64-byte input the exact gas
    [60 + 2 * (2^64 - 1)] exceeds [uint64], yet SHA-256 gas is the ordinary
    value 58: the product and the sum wrap, and no error exists to signal. *)
Lemma sha256_gas_wraps_silently :
  U64.MAX < params.Sha256BaseGas + U64.MAX * ((64 + 31) / 32) /\
  forall (T1 T2 : list Z),
    PrecompileGasWithOverrides T1 T2 shaPerWordMax "SHA256" (repeat Byte.x00 64) 0 = 58.
Proof. split; [vm_compute; reflexivity | intros; vm_compute; reflexivity]. Qed.

(** C3 (amended): the precompile formulas use wrapping [uint64]
    arithmetic with no overflow signal: [base + per_word * words] and
    [k * per_point * discount / 1000] are computed modulo 2^64 (before the
    division); the saturating subtraction [safeSub] used by the SSTORE and
    CALL gas functions is [max(0, a - b)]. *)
Theorem precompile_formulas_wrap :
  (forall schedule bk pk input db dp,
     precompileBasePerWord schedule bk pk input db dp
     = (GetOr schedule bk db
        + GetOr schedule pk dp * ((Z.of_nat (length input) + 31) / 32)) mod 2 ^ 64) /\
  (forall T1 T2 schedule key input pointSize dm,
     let k := Z.of_nat (length input) / pointSize in
     precompileMsm T1 T2 schedule key input pointSize dm
     = if k =? 0 then 0
       else (k * GetOr schedule key dm
             * (if pointSize =? 160 then msmDiscount T1 k else msmDiscount T2 k))
            mod 2 ^ 64 / 1000) /\
  (forall a b, safeSub a b = Z.max 0 (a - b)).
Proof.
  split; [|split].
  - intros. unfold precompileBasePerWord, U64.add, U64.mul, U64.modulus.
    rewrite Zplus_mod_idemp_r. reflexivity.
  - intros. unfold precompileMsm, U64.mul, U64.modulus. fold k.
    destruct (k =? 0); [reflexivity|].
    rewrite Zmult_mod_idemp_l. reflexivity.
  - intros a b. unfold safeSub. destruct (a <? b) eqn:E.
    + apply Z.ltb_lt in E. lia.
    + apply Z.ltb_ge in E. lia.
Qed.

(** ** Cold-access surcharge of the CALL family *)

Definition withAddress (addr : Z) (st : CallState) : CallState :=
  {| addressAccessList := {[addr]} ∪ addressAccessList st;
     callGasTemp := callGasTemp st; memory := memory st |}.

Lemma callVariantEIP2929_spec :
  forall cold warm inner env scopeGas memorySize st,
    let addr := Bytes20 (Back1 env) in
    let coldCost := safeSub cold warm in
    (addr ∉ addressAccessList st ->
       (scopeGas < coldCost ->
          callVariantEIP2929 cold warm inner env scopeGas memorySize st
          = (inr ErrOutOfGas, withAddress addr st)) /\
       (coldCost <= scopeGas ->
          callVariantEIP2929 cold warm inner env scopeGas memorySize st
          = match inner (scopeGas - coldCost) memorySize (withAddress addr st) with
            | (inl gas, st') => (inl (U64.add gas coldCost), st')
            | (inr e, st') => (inr e, st')
            end)) /\
    (addr ∈ addressAccessList st ->
       callVariantEIP2929 cold warm inner env scopeGas memorySize st
       = inner scopeGas memorySize st).
Proof.
  intros cold warm inner env g m st addr coldCost.
  unfold callVariantEIP2929, AddAddressToAccessList, gbind, gget, gput, gret, gfail.
  fold addr coldCost. simpl. split.
  - intros Hn. rewrite bool_decide_false by exact Hn. simpl.
    split; intros Hg.
    + replace (g <? coldCost) with true by lia. reflexivity.
    + replace (g <? coldCost) with false by lia. unfold withAddress.
      destruct (inner (g - coldCost) m _) as [[gas|e] st']; reflexivity.
  - intros Hi. rewrite bool_decide_true by exact Hi. simpl.
    assert (E : {[addr]} ∪ addressAccessList st = addressAccessList st) by set_solver.
    rewrite E. destruct st; reflexivity.
Qed.

(** C4: for every CALL-family opcode, a target not yet in the access list
    makes the gas function fail with out-of-gas when [scope_gas <
    safeSub(CALL_COLD, CALL_WARM)]; otherwise the surcharge is deducted from
    [scope_gas] before the inner calculator (63/64ths rule included) runs,
    and the reported gas is the inner cost plus the surcharge ([uint64]
    addition, as in the source); a warm target reports the inner cost alone. *)
Theorem call_cold_surcharge_before_inner :
  forall op p env scopeGas memorySize st,
    let addr := Bytes20 (Back1 env) in
    let coldCost := safeSub (coldAccessCost p) (warmAccessCost p) in
    (addr ∉ addressAccessList st ->
       (scopeGas < coldCost ->
          callDynamicGas op p env scopeGas memorySize st
          = (inr ErrOutOfGas, withAddress addr st)) /\
       (coldCost <= scopeGas ->
          callDynamicGas op p env scopeGas memorySize st
          = match callInner op p env (scopeGas - coldCost) memorySize (withAddress addr st) with
            | (inl gas, st') => (inl (U64.add gas coldCost), st')
            | (inr e, st') => (inr e, st')
            end)) /\
    (addr ∈ addressAccessList st ->
       callDynamicGas op p env scopeGas memorySize st
       = callInner op p env scopeGas memorySize st).
Proof.
  intros op p env g m st addr coldCost.
  destruct op; apply callVariantEIP2929_spec.
Qed.

Definition sampleCallEnv : CallEnv :=
  {| IsSpuriousDragon := true; IsTangerineWhistle := true;
     EmptyAccount := fun _ => Some false; ExistAccount := fun _ => Some true;
     Back0 := 100000; Back1 := 0xbeef; Back2 := 0 |}.

Definition sampleCallState : CallState :=
  {| addressAccessList := ∅; callGasTemp := 0; memory := {| memLen := 0; lastGasCost := 0 |} |}.

Definition defaultCallParams : callGasParams :=
  {| coldAccessCost := 2600; warmAccessCost := 100; valueXferCost := 9000;
     newAccountCost := 25000 |}.

Lemma call_cold_surcharge_before_inner_witness :
  (Bytes20 (Back1 sampleCallEnv) ∉ addressAccessList sampleCallState) /\
  safeSub 2600 100 <= 10000 /\
  callDynamicGas CALL defaultCallParams sampleCallEnv 10000 0 sampleCallState
  = match callInner CALL defaultCallParams sampleCallEnv (10000 - 2500) 0
            (withAddress (Bytes20 0xbeef) sampleCallState) with
    | (inl gas, st') => (inl (U64.add gas 2500), st')
    | (inr e, st') => (inr e, st')
    end.
Proof.
  assert (Hn : Bytes20 (Back1 sampleCallEnv) ∉ addressAccessList sampleCallState)
    by (simpl; set_solver).
  assert (Hc : safeSub 2600 100 <= 10000) by (vm_compute; congruence).
  split; [exact Hn|]. split; [exact Hc|].
  exact (proj2 (proj1 (call_cold_surcharge_before_inner CALL defaultCallParams
           sampleCallEnv 10000 0 sampleCallState) Hn) Hc).
Defined.

(** The cold CALL of the sample spends [10000 - 2500 = 7500] available gas:
    the child gets [7500 - 7500/64 = 7383] and the reported gas is
    [7383 + 2500]. *)
Example cold_call_sample :
  fst (callDynamicGas CALL defaultCallParams sampleCallEnv 10000 0 sampleCallState)
  = inl (7383 + 2500).
Proof. vm_compute. reflexivity. Qed.

(** ** Structured-log tracer: GasCost sanitisation *)

Definition costBounded (l : StructLog) : Prop := 0 <= GasCost l <= Gas l.

Lemma updatePendingGasUsed_bounded :
  forall depth gas pending (ls : list StructLog),
    Forall costBounded ls ->
    Forall costBounded (snd (updatePendingGasUsed depth gas pending ls)).
Proof.
  intros depth gas pending ls H. unfold updatePendingGasUsed.
  repeat case_match; simpl; try exact H.
  apply Forall_alter; [exact H|]. intros x _ Hx. exact Hx.
Qed.

Lemma resolvePendingCreates_bounded :
  forall depth stack pcs (ls : list StructLog),
    Forall costBounded ls ->
    Forall costBounded (snd (resolvePendingCreates depth stack pcs ls)).
Proof.
  intros depth stack pcs. induction pcs as [|pc rest IH]; intros ls H; simpl.
  - exact H.
  - case_match; simpl; [|exact H].
    apply IH. case_match; [|exact H].
    apply Forall_alter; [exact H|]. intros x _ Hx. exact Hx.
Qed.

Lemma tracerStep_bounded :
  forall t ev, event_wf ev ->
    Forall costBounded (logs t) -> Forall costBounded (logs (tracerStep t ev)).
Proof.
  intros t ev Hwf H. destruct ev as [| g e | d o e | pc op gas cost stack rData depth e r];
    simpl; try exact H.
  - unfold OnTxEnd. destruct e; exact H.
  - unfold OnExit. destruct (negb (Nat.eqb d 0)); exact H.
  - destruct Hwf as [[Hg0 Hg1] [Hc0 Hc1]]. unfold OnOpcode.
    destruct (updatePendingGasUsed depth gas (pendingIdx t) (logs t)) as [pending ls1] eqn:E1.
    destruct (resolvePendingCreates depth stack (pendingCreates t) ls1) as [pcs ls2] eqn:E2.
    simpl. apply Forall_app. split.
    + change ls2 with (snd (pcs, ls2)). rewrite <- E2.
      apply resolvePendingCreates_bounded.
      change ls1 with (snd (pending, ls1)). rewrite <- E1.
      apply updatePendingGasUsed_bounded. exact H.
    + constructor; [|constructor]. unfold costBounded. simpl.
      destruct (gas <? cost) eqn:Ec; [lia|]. apply Z.ltb_ge in Ec. lia.
Qed.

Lemma fold_tracerStep_bounded :
  forall evs t, Forall event_wf evs -> Forall costBounded (logs t) ->
    Forall costBounded (logs (fold_left tracerStep evs t)).
Proof.
  induction evs as [|ev evs IH]; intros t Hwf H; simpl; [exact H|].
  inversion Hwf as [|? ? Hev Hrest]; subst.
  apply IH; [exact Hrest|]. apply tracerStep_bounded; assumption.
Qed.

(** C8: in every trace, every structured log entry satisfies
    [0 <= gas_cost <= gas]: the tracer caps a reported cost above the
    remaining gas at the remaining gas, and later hooks never change
    [GasCost] or [Gas]. *)
Theorem structlog_gas_cost_bounded :
  forall cfgReturnData evs i l,
    Forall event_wf evs ->
    logs (runTracer cfgReturnData evs) !! i = Some l ->
    0 <= GasCost l <= Gas l.
Proof.
  intros cfg evs i l Hwf Hl.
  assert (H : Forall costBounded (logs (runTracer cfg evs))).
  { apply fold_tracerStep_bounded; [exact Hwf | constructor]. }
  rewrite Forall_lookup in H. exact (H i l Hl).
Qed.

(** The OOG trace of TestGasUsedOOGAtDepth (tracer_test.go). *)
Definition oogAtDepthTrace : list TracerEvent :=
  [EvOpcode 0 opCALL 10000 100 [] [] 1 None 0;
   EvOpcode 1 0x51 5000 999999999999 [] [] 2 (Some "out of gas") 0;
   EvOpcode 2 0x50 4900 50 [] [] 1 None 0].

Lemma oogAtDepthTrace_wf : Forall event_wf oogAtDepthTrace.
Proof. repeat constructor; unfold U64.MAX; lia. Qed.

Lemma structlog_gas_cost_bounded_witness :
  Forall event_wf oogAtDepthTrace /\
  exists l, logs (runTracer false oogAtDepthTrace) !! 1%nat = Some l /\
            GasCost l = 5000 /\ 0 <= GasCost l <= Gas l.
Proof.
  split; [exact oogAtDepthTrace_wf|].
  eexists. split; [vm_compute; reflexivity|]. split; [reflexivity|].
  apply (structlog_gas_cost_bounded false oogAtDepthTrace 1%nat);
    [exact oogAtDepthTrace_wf | vm_compute; reflexivity].
Defined.

(** ** Structured-log tracer: GasUsed of the last entry of a frame *)

(** C7: on the trace of TestGasUsedOOGAtDepth the depth-1 CALL entry gets
    [GasUsed = 10000 - 4900] from the next depth-1 entry, but the OOG entry
    that ends the depth-2 frame keeps the raw reported cost 999999999999 as
    [GasUsed] while its [GasCost] is capped at 5000: the entry's [gas_used]
    is not its [gas_cost]. *)
Theorem oog_frame_end_gas_used_not_gas_cost :
  map GasCost (logs (runTracer false oogAtDepthTrace)) = [100; 5000; 50] /\
  map GasUsed (logs (runTracer false oogAtDepthTrace)) = [5100; 999999999999; 50].
Proof. vm_compute. split; reflexivity. Qed.

(** ** Custom intrinsic gas: overflow *)

Lemma countNonZero_bounds :
  forall data, 0 <= countNonZero data <= Z.of_nat (length data).
Proof.
  induction data as [|b rest IH]; simpl; [lia|].
  destruct (Byte.eqb b Byte.x00); lia.
Qed.

(** Every value of a schedule's override map is a [uint64]. *)
Definition schedule_valid (g : option GasSchedule) : Prop :=
  forall s m key v, g = Some s -> Overrides s = Some m -> m !! key = Some v -> U64.valid v.

(** Intrinsic gas and EIP-7623 floor computed exactly over [Z], following
    the summands of [CalcCustomIntrinsicGas] without any [uint64] limit. *)
Definition intrinsicExact (schedule : option GasSchedule)
    (data : list Byte.byte) (accessListLen storageKeysLen : Z)
    (isContractCreation isEIP2 isEIP2028 isEIP3860 isEIP7623 isAATxn : bool)
    (authorizationsLen : Z) : Z * Z :=
  let dataLen := Z.of_nat (length data) in
  let nz := countNonZero data in
  let gas0 :=
    if isContractCreation && isEIP2 then
      GetOr schedule "TX_CREATE_BASE" params.TxGasContractCreation
    else if isAATxn then params.TxAAGas
    else GetOr schedule "TX_BASE" params.TxGas in
  let floor0 := GetOr schedule "TX_BASE" params.TxGas in
  let nonZeroGas :=
    if isEIP2028 then GetOr schedule "TX_DATA_NONZERO" params.TxDataNonZeroGasEIP2028
    else GetOr schedule "TX_DATA_NONZERO" params.TxDataNonZeroGasFrontier in
  let dataGas :=
    if 0 <? dataLen then
      nz * nonZeroGas
      + (dataLen - nz) * GetOr schedule "TX_DATA_ZERO" params.TxDataZeroGas
      + (if isContractCreation && isEIP3860 then
           intrinsicToWordSize dataLen * GetOr schedule "TX_INIT_CODE_WORD" params.InitCodeWordGas
         else 0)
    else 0 in
  let floorData :=
    if (0 <? dataLen) && isEIP7623 then
      (dataLen + 3 * nz) * GetOr schedule "TX_FLOOR_PER_TOKEN" params.TxTotalCostFloorPerToken
    else 0 in
  let accessGas :=
    if 0 <? accessListLen then
      accessListLen * GetOr schedule "TX_ACCESS_LIST_ADDR" params.TxAccessListAddressGas
      + storageKeysLen * GetOr schedule "TX_ACCESS_LIST_KEY" params.TxAccessListStorageKeyGas
    else 0 in
  (gas0 + dataGas + accessGas
     + authorizationsLen * GetOr schedule "TX_AUTH_COST" params.PerEmptyAccountCost,
   floor0 + floorData).

Lemma GetOr_valid (g : option GasSchedule) key d :
  schedule_valid g -> U64.valid d -> U64.valid (GetOr g key d).
Proof.
  intros Hg Hd. unfold GetOr.
  destruct g as [s|]; [|exact Hd].
  destruct (Overrides s) as [m|] eqn:Hm; [|exact Hd].
  destruct (m !! key) as [v|] eqn:Hv; [|exact Hd].
  exact (Hg s m key v eq_refl Hm Hv).
Qed.

Lemma checked_mul {A} (a b : Z) (k : Z -> A * A) (zero : A) :
  0 <= a * b ->
  checked (U64.SafeMul a b) k zero = if U64.MAX <? a * b then (zero, zero) else k (a * b).
Proof.
  intros H. unfold checked, U64.SafeMul, U64.mul; simpl.
  destruct (Z.ltb_spec U64.MAX (a * b)); [reflexivity|].
  rewrite Z.mod_small; [reflexivity|unfold U64.MAX, U64.modulus in *; lia].
Qed.

Lemma checked_add {A} (a b : Z) (k : Z -> A * A) (zero : A) :
  0 <= a + b ->
  checked (U64.SafeAdd a b) k zero = if U64.MAX <? a + b then (zero, zero) else k (a + b).
Proof.
  intros H. unfold checked, U64.SafeAdd, U64.add; simpl.
  destruct (Z.ltb_spec U64.MAX (a + b)); [reflexivity|].
  rewrite Z.mod_small; [reflexivity|unfold U64.MAX, U64.modulus in *; lia].
Qed.

Lemma intrinsicToWordSize_nonneg (size : Z) : 0 <= size -> 0 <= intrinsicToWordSize size.
Proof.
  intros H. unfold intrinsicToWordSize.
  destruct (_ <? _); [now vm_compute|].
  apply Z.div_pos; lia.
Qed.

(** C9: the intrinsic gas of [CalcCustomIntrinsicGas] is computed with
    checked multiplications and additions, and it returns [(0, 0)] as soon as
    one of them overflows: for every schedule of [uint64] values, [uint64]
    access-list, storage-key and authorization counts, and every data slice
    the function can receive (shorter than 2^62 bytes, far beyond any slice a
    64-bit address space holds), the result is the exact intrinsic gas and
    EIP-7623 floor when both fit in [uint64], and [(0, 0)] otherwise.  All
    summands are non-negative, so an intermediate product or sum overflows
    exactly when the total does.  The one unchecked sum, the token count
    [dataLen + 3 * nz], is at most [4 * dataLen] and cannot wrap here. *)
Theorem intrinsic_gas_overflow_gives_zero schedule data accessListLen storageKeysLen
    isContractCreation isEIP2 isEIP2028 isEIP3860 isEIP7623 isAATxn authorizationsLen
    (Hs : schedule_valid schedule)
    (Hal : U64.valid accessListLen) (Hkl : U64.valid storageKeysLen)
    (Hau : U64.valid authorizationsLen)
    (Hlen : Z.of_nat (length data) < 2 ^ 62) :
  CalcCustomIntrinsicGas schedule data accessListLen storageKeysLen
    isContractCreation isEIP2 isEIP2028 isEIP3860 isEIP7623 isAATxn authorizationsLen =
  let '(gas, floorGas) :=
    intrinsicExact schedule data accessListLen storageKeysLen
      isContractCreation isEIP2 isEIP2028 isEIP3860 isEIP7623 isAATxn authorizationsLen in
  if (gas <=? U64.MAX) && (floorGas <=? U64.MAX) then (gas, floorGas) else (0, 0).
Proof.
  unfold CalcCustomIntrinsicGas, intrinsicExact.
  pose proof (countNonZero_bounds data) as Hnz.
  set (dl := Z.of_nat (length data)) in *.
  set (nz := countNonZero data) in *.
  assert (Htok : dl + 3 * nz <= U64.MAX) by (unfold U64.MAX; lia).
  assert (Hsub : U64.sub dl nz = dl - nz).
  { unfold U64.sub. apply Z.mod_small. unfold U64.MAX, U64.modulus in *. lia. }
  assert (Htk : U64.add dl (U64.mul 3 nz) = dl + 3 * nz).
  { unfold U64.add, U64.mul.
    rewrite (Z.mod_small (3 * nz)) by (unfold U64.MAX, U64.modulus in *; lia).
    apply Z.mod_small. unfold U64.MAX, U64.modulus in *. lia. }
  rewrite Hsub, Htk. cbv zeta.
  pose proof (intrinsicToWordSize_nonneg dl ltac:(lia)) as Hw.
  assert (Hv : forall key d, U64.valid d -> U64.valid (GetOr schedule key d))
    by (intros; apply GetOr_valid; assumption).
  assert (HD : forall d, 0 <= d <= U64.MAX -> U64.valid d) by (intros; exact H).
  assert (HMAX : 0 <= U64.MAX) by (unfold U64.MAX; lia).
  pose proof (Hv "TX_CREATE_BASE" params.TxGasContractCreation ltac:(split; now vm_compute)) as V1.
  pose proof (Hv "TX_BASE" params.TxGas ltac:(split; now vm_compute)) as V2.
  pose proof (Hv "TX_DATA_NONZERO" params.TxDataNonZeroGasEIP2028 ltac:(split; now vm_compute)) as V3.
  pose proof (Hv "TX_DATA_NONZERO" params.TxDataNonZeroGasFrontier ltac:(split; now vm_compute)) as V4.
  pose proof (Hv "TX_DATA_ZERO" params.TxDataZeroGas ltac:(split; now vm_compute)) as V5.
  pose proof (Hv "TX_INIT_CODE_WORD" params.InitCodeWordGas ltac:(split; now vm_compute)) as V6.
  pose proof (Hv "TX_FLOOR_PER_TOKEN" params.TxTotalCostFloorPerToken ltac:(split; now vm_compute)) as V7.
  pose proof (Hv "TX_ACCESS_LIST_ADDR" params.TxAccessListAddressGas ltac:(split; now vm_compute)) as V8.
  pose proof (Hv "TX_ACCESS_LIST_KEY" params.TxAccessListStorageKeyGas ltac:(split; now vm_compute)) as V9.
  pose proof (Hv "TX_AUTH_COST" params.PerEmptyAccountCost ltac:(split; now vm_compute)) as V10.
  assert (V0 : U64.valid params.TxAAGas) by (split; now vm_compute).
  clear Hv HD Hsub Htk Hs.
  unfold U64.valid in *.
  set (cbase := GetOr schedule "TX_CREATE_BASE" params.TxGasContractCreation) in *.
  set (base := GetOr schedule "TX_BASE" params.TxGas) in *.
  set (nzE := GetOr schedule "TX_DATA_NONZERO" params.TxDataNonZeroGasEIP2028) in *.
  set (nzF := GetOr schedule "TX_DATA_NONZERO" params.TxDataNonZeroGasFrontier) in *.
  set (zg := GetOr schedule "TX_DATA_ZERO" params.TxDataZeroGas) in *.
  set (iw := GetOr schedule "TX_INIT_CODE_WORD" params.InitCodeWordGas) in *.
  set (fpt := GetOr schedule "TX_FLOOR_PER_TOKEN" params.TxTotalCostFloorPerToken) in *.
  set (addr := GetOr schedule "TX_ACCESS_LIST_ADDR" params.TxAccessListAddressGas) in *.
  set (key := GetOr schedule "TX_ACCESS_LIST_KEY" params.TxAccessListStorageKeyGas) in *.
  set (ac := GetOr schedule "TX_AUTH_COST" params.PerEmptyAccountCost) in *.
  set (aa := params.TxAAGas) in *.
  set (words := intrinsicToWordSize dl) in *.
  assert (Hz : 0 <= dl - nz) by lia.
  assert (Ht : 0 <= dl + 3 * nz) by lia.
  set (z := dl - nz) in *. set (tok := dl + 3 * nz) in *.
  clearbody cbase base nzE nzF zg iw fpt addr key ac aa words z tok dl nz.
  destruct isContractCreation, isEIP2, isEIP2028, isEIP3860, isEIP7623, isAATxn;
    destruct (Z.ltb_spec 0 dl); destruct (Z.ltb_spec 0 accessListLen);
    cbv beta zeta iota delta [andb];
    repeat (first [ rewrite checked_mul by (apply Z.mul_nonneg_nonneg; lia)
                  | rewrite checked_add by lia ];
            cbv beta;
            match goal with
            | |- context [U64.MAX <? ?x] => destruct (Z.ltb_spec U64.MAX x)
            end);
    repeat match goal with
           | |- context [?x <=? U64.MAX] => destruct (Z.leb_spec x U64.MAX)
           end;
    cbn [andb];
    first [ reflexivity
          | exfalso; lia
          | f_equal; lia ].
Qed.

Lemma intrinsic_gas_overflow_gives_zero_witness :
  schedule_valid None /\
  CalcCustomIntrinsicGas None [Byte.x01; Byte.x00] 1 2 false true true true true false U64.MAX
  = (0, 0).
Proof.
  assert (Hs : schedule_valid None) by (intros s m key v H; discriminate).
  split; [exact Hs|].
  assert (Hv1 : U64.valid 1) by (split; vm_compute; discriminate).
  assert (Hv2 : U64.valid 2) by (split; vm_compute; discriminate).
  assert (HvM : U64.valid U64.MAX) by (split; vm_compute; discriminate).
  assert (Ht : Z.of_nat (length [Byte.x01; Byte.x00]) < 2 ^ 62)
    by (vm_compute; reflexivity).
  rewrite (intrinsic_gas_overflow_gives_zero None [Byte.x01; Byte.x00] 1 2
             false true true true true false U64.MAX Hs Hv1 Hv2 HvM Ht).
  vm_compute. reflexivity.
Defined.

(** ** Structured-log tracer: GasUsed within a frame *)

(** The [(Gas, GasUsed, Depth)] of a log entry. *)
Definition coreOf (l : StructLog) : Z * Z * nat := (Gas l, GasUsed l, Depth l).

(** What [updatePendingGasUsed] does to the pending entry's core. *)
Definition closeCore (g : Z) (c : Z * Z * nat) : Z * Z * nat :=
  (c.1.1, U64.sub c.1.1 g, c.2).

(** The pending list prepared for an opcode at [depth]. *)
Definition prep (depth : nat) (p : list Z) : list Z :=
  clearDeeper depth (growPending depth p).

(** [updatePendingGasUsed] on the cores: the entry [pending[depth]] (if it
    is a valid index) gets [GasUsed := Gas - currentGas]. *)
Definition closePending (depth : nat) (currentGas : Z) (p : list Z)
    (cs : list (Z * Z * nat)) : list (Z * Z * nat) :=
  let prevIdx := default (-1) (p !! depth) in
  if (0 <=? prevIdx) && (prevIdx <? Z.of_nat (length cs)) then
    alter (closeCore currentGas) (Z.to_nat prevIdx) cs
  else cs.

(** A non-negative pending index names an entry of that depth after which
    every entry is deeper. *)
Definition pendingOk (p : list Z) (cs : list (Z * Z * nat)) : Prop :=
  forall d j, p !! d = Some j -> j = -1 \/
    (0 <= j /\ exists c, cs !! Z.to_nat j = Some c /\ c.2 = d /\
       forall k ck, (Z.to_nat j < k)%nat -> cs !! k = Some ck -> (d < ck.2)%nat).

(** An entry followed only by deeper entries is the pending one of its depth. *)
Definition frameLastOk (p : list Z) (cs : list (Z * Z * nat)) : Prop :=
  forall i c, cs !! i = Some c ->
    (forall k ck, (i < k)%nat -> cs !! k = Some ck -> (c.2 < ck.2)%nat) ->
    p !! c.2 = Some (Z.of_nat i).

(** Two entries of one depth with only deeper entries between them. *)
Definition gasUsedOk (cs : list (Z * Z * nat)) : Prop :=
  forall i j ci cj, (i < j)%nat -> cs !! i = Some ci -> cs !! j = Some cj ->
    ci.2 = cj.2 ->
    (forall k ck, (i < k < j)%nat -> cs !! k = Some ck -> (ci.2 < ck.2)%nat) ->
    ci.1.2 = U64.sub ci.1.1 cj.1.1.

Definition tracerInv (t : StructLogTracer) : Prop :=
  pendingOk (pendingIdx t) (coreOf <$> logs t) /\
  frameLastOk (pendingIdx t) (coreOf <$> logs t) /\
  gasUsedOk (coreOf <$> logs t).

Lemma prep_lookup depth p d :
  prep depth p !! d =
  if Nat.leb d depth then Some (default (-1) (p !! d)) else (fun _ => -1) <$> p !! d.
Proof.
  unfold prep, clearDeeper, growPending.
  rewrite list_lookup_imap, lookup_app.
  destruct (p !! d) as [v|] eqn:E; simpl.
  - destruct (Nat.ltb_spec depth d), (Nat.leb_spec d depth); simpl; try reflexivity; lia.
  - apply lookup_ge_None in E. destruct (Nat.leb_spec d depth).
    + rewrite (lookup_replicate_2 _ _ _) by lia. simpl.
      destruct (Nat.ltb_spec depth d); [lia|reflexivity].
    + rewrite (proj1 (lookup_replicate_None _ _ _)) by lia. reflexivity.
Qed.

Lemma prep_lookup_depth depth p :
  prep depth p !! depth = Some (default (-1) (p !! depth)).
Proof. rewrite prep_lookup, Nat.leb_refl. reflexivity. Qed.

Lemma prep_length depth p : (depth < length (prep depth p))%nat.
Proof. eapply lookup_lt_Some. apply prep_lookup_depth. Qed.

Lemma growPending_id depth p : (depth < length p)%nat -> growPending depth p = p.
Proof.
  intros H. unfold growPending.
  replace (S depth - length p)%nat with 0%nat by lia. apply app_nil_r.
Qed.

Lemma coreOf_setCallToAddress a (ls : list StructLog) (k : nat) :
  coreOf <$> alter (setCallToAddress a) k ls = coreOf <$> ls.
Proof.
  apply list_eq. intros i. rewrite !list_lookup_fmap, list_lookup_alter.
  case_decide; subst; [|reflexivity].
  destruct (ls !! i); reflexivity.
Qed.

Lemma coreOf_resolvePendingCreates cd stack pcs ls :
  coreOf <$> snd (resolvePendingCreates cd stack pcs ls) = coreOf <$> ls.
Proof.
  revert ls. induction pcs as [|pc rest IH]; intros ls; simpl; [reflexivity|].
  destruct (Nat.leb cd (pcDepth pc)); simpl; [|reflexivity].
  rewrite IH. destruct (last stack); [apply coreOf_setCallToAddress|reflexivity].
Qed.

Lemma coreOf_setGasUsed g (ls : list StructLog) (k : nat) :
  coreOf <$> alter (fun l => setGasUsed (U64.sub (Gas l) g) l) k ls
  = alter (closeCore g) k (coreOf <$> ls).
Proof.
  apply list_eq. intros i. rewrite !list_lookup_fmap, !list_lookup_alter.
  case_decide; subst; rewrite ?list_lookup_fmap; [|reflexivity].
  destruct (ls !! i); reflexivity.
Qed.

Lemma lookup_snoc_same {A} (l : list A) x k :
  (k < length l)%nat -> (l ++ [x]) !! k = l !! k.
Proof. intros H. apply lookup_app_l. exact H. Qed.

(** One opcode step on the cores: [cs1] is [cs] with at most the pending
    entry of [depth] closed. *)
Lemma inv_step_core (p : list Z) (cs cs1 : list (Z * Z * nat)) depth g cost :
  pendingOk p cs -> frameLastOk p cs -> gasUsedOk cs ->
  length cs1 = length cs ->
  (forall k c1, cs1 !! k = Some c1 -> exists c, cs !! k = Some c /\
     c1.1.1 = c.1.1 /\ c1.2 = c.2 /\ (c1 = c \/ p !! depth = Some (Z.of_nat k))) ->
  (forall i c, p !! depth = Some (Z.of_nat i) -> cs !! i = Some c ->
     cs1 !! i = Some (closeCore g c)) ->
  let p' := <[depth := Z.of_nat (length cs)]> (prep depth p) in
  let cs' := cs1 ++ [(g, cost, depth)] in
  pendingOk p' cs' /\ frameLastOk p' cs' /\ gasUsedOk cs'.
Proof.
  intros Hpend Hlast Hused Hlen Hch Hclose p' cs'.
  (* every old entry survives in [cs1] with its gas and depth *)
  assert (Hkeep : forall k c, cs !! k = Some c -> exists c1, cs1 !! k = Some c1 /\
            c1.1.1 = c.1.1 /\ c1.2 = c.2).
  { intros k c Hk.
    destruct (cs1 !! k) as [c1|] eqn:E1.
    - destruct (Hch k c1 E1) as (c0 & H0 & Hg & Hd & _).
      rewrite Hk in H0. injection H0 as <-. eauto.
    - apply lookup_ge_None in E1. apply lookup_lt_Some in Hk. lia. }
  assert (Hnew : cs' !! length cs = Some (g, cost, depth)).
  { unfold cs'. rewrite lookup_app_r by lia. rewrite Hlen, Nat.sub_diag. reflexivity. }
  assert (Hcs' : forall k c, cs' !! k = Some c ->
            ((k < length cs)%nat /\ cs1 !! k = Some c) \/
            (k = length cs /\ c = (g, cost, depth))).
  { intros k c Hk. unfold cs' in Hk. apply lookup_snoc_Some in Hk.
    rewrite Hlen in Hk. destruct Hk as [[? ?]|[? ?]]; [left|right]; auto. }
  assert (Hplen := prep_length depth p).
  split; [|split].
  - (* pendingOk *)
    intros d j Hj. unfold p' in Hj.
    destruct (decide (d = depth)) as [->|Hne].
    + rewrite list_lookup_insert_eq in Hj by lia. injection Hj as <-.
      right. split; [lia|]. exists (g, cost, depth).
      rewrite Nat2Z.id. split; [exact Hnew|]. split; [reflexivity|].
      intros k ck Hk Hck. apply Hcs' in Hck. lia.
    + rewrite list_lookup_insert_ne in Hj by congruence.
      rewrite prep_lookup in Hj.
      destruct (Nat.leb_spec d depth).
      * injection Hj as <-. destruct (p !! d) as [j|] eqn:Ej; simpl; [|left; reflexivity].
        destruct (Hpend d j Ej) as [?|(Hj0 & c & Hc & Hcd & Haft)]; [left; assumption|].
        right. split; [exact Hj0|].
        destruct (Hkeep _ _ Hc) as (c1 & Hc1 & _ & Hd1).
        exists c1. split; [|split].
        { unfold cs'. rewrite lookup_app_l; [exact Hc1|].
          apply lookup_lt_Some in Hc. lia. }
        { congruence. }
        intros k ck Hk Hck. apply Hcs' in Hck.
        destruct Hck as [[Hlt Hck]|[-> ->]]; [|simpl; lia].
        destruct (Hch _ _ Hck) as (c0 & H0 & _ & Hd0 & _).
        rewrite Hd0. exact (Haft k c0 Hk H0).
      * destruct (p !! d); simpl in Hj; [|discriminate].
        injection Hj as <-. left. reflexivity.
  - (* frameLastOk *)
    intros i c Hi Haft. apply Hcs' in Hi.
    destruct Hi as [[Hlt Hi]|[-> ->]].
    + assert (Hdc : (c.2 < depth)%nat) by exact (Haft (length cs) _ Hlt Hnew).
      destruct (Hch _ _ Hi) as (c0 & H0 & _ & Hd0 & _).
      assert (Hp : p !! c0.2 = Some (Z.of_nat i)).
      { apply (Hlast i c0 H0). intros k ck Hk Hck.
        destruct (Hkeep _ _ Hck) as (c1 & Hc1 & _ & Hd1).
        rewrite <- Hd0, <- Hd1. apply (Haft k c1 Hk).
        unfold cs'. rewrite lookup_app_l; [exact Hc1|].
        apply lookup_lt_Some in Hck. lia. }
      unfold p'. rewrite list_lookup_insert_ne by lia.
      rewrite prep_lookup, Hd0, Hp.
      destruct (Nat.leb_spec c0.2 depth); [reflexivity|lia].
    + unfold p'. simpl. rewrite list_lookup_insert_eq by lia. reflexivity.
  - (* gasUsedOk *)
    intros i j ci cj Hij Hi Hj Hd Hbetw.
    apply Hcs' in Hi. destruct Hi as [[Hi_lt Hi]|[-> ->]]; [|apply Hcs' in Hj; lia].
    destruct (Hch _ _ Hi) as (c0 & H0 & Hg0 & Hd0 & Hor).
    apply Hcs' in Hj. destruct Hj as [[Hj_lt Hj]|[-> ->]].
    + (* both entries are old *)
      destruct (Hch _ _ Hj) as (cj0 & Hj0 & Hgj & Hdj & _).
      destruct Hor as [->|Hpd].
      * rewrite Hgj. apply (Hused i j c0 cj0 Hij H0 Hj0); [congruence|].
        intros k ck Hk Hck.
        destruct (Hkeep _ _ Hck) as (c1 & Hc1 & _ & Hd1).
        rewrite <- Hd1. apply (Hbetw k c1 Hk).
        unfold cs'. rewrite lookup_app_l; [exact Hc1|].
        apply lookup_lt_Some in Hck. lia.
      * (* the closed entry has no later entry of its depth *)
        exfalso.
        destruct (Hpend _ _ Hpd) as [?|(_ & c & Hc & Hcd & Haft)]; [lia|].
        rewrite Nat2Z.id in Hc, Haft. rewrite H0 in Hc. injection Hc as <-.
        specialize (Haft j cj0 Hij Hj0). lia.
    + (* the later entry is the new one: [ci] was pending for its depth *)
      simpl in Hd. simpl.
      assert (Hp : p !! depth = Some (Z.of_nat i)).
      { rewrite <- Hd, Hd0. apply (Hlast i c0 H0).
        intros k ck Hk Hck.
        destruct (Hkeep _ _ Hck) as (c1 & Hc1 & _ & Hd1).
        rewrite <- Hd0, <- Hd1. apply (Hbetw k c1); [|].
        - split; [exact Hk|]. apply lookup_lt_Some in Hck. lia.
        - unfold cs'. rewrite lookup_app_l; [exact Hc1|].
          apply lookup_lt_Some in Hck. lia. }
      rewrite (Hclose i c0 Hp H0) in Hi. injection Hi as <-.
      reflexivity.
Qed.

Lemma closePending_props depth g (p : list Z) (cs : list (Z * Z * nat)) :
  length (closePending depth g p cs) = length cs /\
  (forall k c1, closePending depth g p cs !! k = Some c1 -> exists c, cs !! k = Some c /\
     c1.1.1 = c.1.1 /\ c1.2 = c.2 /\ (c1 = c \/ p !! depth = Some (Z.of_nat k))) /\
  (forall i c, p !! depth = Some (Z.of_nat i) -> cs !! i = Some c ->
     closePending depth g p cs !! i = Some (closeCore g c)).
Proof.
  unfold closePending.
  destruct ((0 <=? default (-1) (p !! depth))
            && (default (-1) (p !! depth) <? Z.of_nat (length cs))) eqn:Hc.
  - apply andb_true_iff in Hc. destruct Hc as [H0 H1].
    apply Z.leb_le in H0. apply Z.ltb_lt in H1.
    split; [apply length_alter|split].
    + intros k c1 Hk. rewrite list_lookup_alter in Hk. case_decide as Heq.
      * subst k. destruct (cs !! _) as [c|] eqn:E; simpl in Hk; [|discriminate].
        injection Hk as <-. exists c. split; [first [exact E | reflexivity]|]. split; [reflexivity|].
        split; [reflexivity|]. right. rewrite Z2Nat.id by lia.
        destruct (p !! depth); simpl in *; [reflexivity|lia].
      * exists c1. auto.
    + intros i c Hp Hi. rewrite Hp. simpl. rewrite Nat2Z.id, list_lookup_alter_eq, Hi.
      reflexivity.
  - split; [reflexivity|split].
    + intros k c1 Hk. exists c1. auto.
    + intros i c Hp Hi. exfalso. rewrite Hp in Hc. simpl in Hc.
      apply lookup_lt_Some in Hi.
      apply andb_false_iff in Hc. destruct Hc as [Hc|Hc];
        [apply Z.leb_gt in Hc | apply Z.ltb_ge in Hc]; lia.
Qed.

Lemma updatePendingGasUsed_core depth g p (ls : list StructLog) :
  fst (updatePendingGasUsed depth g p ls) = prep depth p /\
  coreOf <$> snd (updatePendingGasUsed depth g p ls) = closePending depth g p (coreOf <$> ls).
Proof.
  unfold updatePendingGasUsed, closePending. cbv zeta.
  change (clearDeeper depth (growPending depth p)) with (prep depth p).
  rewrite prep_lookup_depth, length_fmap.
  destruct (_ && _); simpl; split; try reflexivity.
  apply coreOf_setGasUsed.
Qed.

Lemma OnOpcode_inv pc opcode gas cost stack rData depth e refundNow t :
  tracerInv t -> tracerInv (OnOpcode pc opcode gas cost stack rData depth e refundNow t).
Proof.
  intros (H1 & H2 & H3). unfold OnOpcode.
  pose proof (updatePendingGasUsed_core depth gas (pendingIdx t) (logs t)) as [Uf Us].
  destruct (updatePendingGasUsed depth gas (pendingIdx t) (logs t)) as [pending logs1].
  simpl in Uf, Us. subst pending.
  pose proof (coreOf_resolvePendingCreates depth stack (pendingCreates t) logs1) as Rc.
  destruct (resolvePendingCreates depth stack (pendingCreates t) logs1) as [pcs logs2].
  simpl in Rc.
  destruct (closePending_props depth gas (pendingIdx t) (coreOf <$> logs t)) as (A & B & C).
  assert (Hl : length logs2 = length (coreOf <$> logs t)).
  { rewrite <- (length_fmap coreOf logs2), Rc, Us. exact A. }
  unfold tracerInv. simpl. rewrite fmap_app, Rc, Us.
  unfold setPendingIdx. rewrite growPending_id by apply prep_length.
  rewrite Hl.
  exact (inv_step_core _ _ _ depth gas cost H1 H2 H3 A B C).
Qed.

Lemma tracerStep_inv t ev : tracerInv t -> tracerInv (tracerStep t ev).
Proof.
  intros H. destruct ev as [|g e|d o e|pc op gas cost stack rData depth e refundNow];
    simpl.
  - exact H.
  - destruct e; exact H.
  - unfold OnExit. destruct (negb _); exact H.
  - apply OnOpcode_inv. exact H.
Qed.

Lemma fold_tracerStep_inv evs t : tracerInv t -> tracerInv (fold_left tracerStep evs t).
Proof.
  revert t. induction evs as [|ev rest IH]; intros t H; simpl; [exact H|].
  apply IH, tracerStep_inv, H.
Qed.

Lemma NewStructLogTracer_inv cfg : tracerInv (NewStructLogTracer cfg).
Proof.
  unfold tracerInv; simpl. split; [|split].
  - intros d j H. rewrite lookup_nil in H. discriminate.
  - intros i c H. rewrite ?list_lookup_fmap, lookup_nil in H. discriminate.
  - intros i j ci cj _ H. rewrite ?list_lookup_fmap, lookup_nil in H. discriminate.
Qed.

(** Within one call frame, a log entry's [GasUsed] is its [Gas] minus the
    [Gas] of the next entry of the same depth (Go [uint64] subtraction),
    whatever deeper frames ran in between. *)
Theorem structlog_gas_used_same_frame cfgReturnData evs i j li lj :
  logs (runTracer cfgReturnData evs) !! i = Some li ->
  logs (runTracer cfgReturnData evs) !! j = Some lj ->
  (i < j)%nat -> Depth li = Depth lj ->
  (forall k lk, (i < k < j)%nat -> logs (runTracer cfgReturnData evs) !! k = Some lk ->
     (Depth li < Depth lk)%nat) ->
  GasUsed li = U64.sub (Gas li) (Gas lj).
Proof.
  intros Hi Hj Hij Hd Hbetw.
  destruct (fold_tracerStep_inv evs _ (NewStructLogTracer_inv cfgReturnData))
    as (_ & _ & Hused).
  apply (Hused i j (coreOf li) (coreOf lj) Hij).
  - rewrite list_lookup_fmap. unfold runTracer in Hi. rewrite Hi. reflexivity.
  - rewrite list_lookup_fmap. unfold runTracer in Hj. rewrite Hj. reflexivity.
  - exact Hd.
  - intros k ck Hk Hck. rewrite list_lookup_fmap in Hck.
    destruct (logs _ !! k) as [lk|] eqn:E; simpl in Hck; [|discriminate].
    injection Hck as <-. apply (Hbetw k lk Hk E).
Qed.

Lemma structlog_gas_used_same_frame_witness :
  exists li lj,
    logs (runTracer false oogAtDepthTrace) !! 0%nat = Some li /\
    logs (runTracer false oogAtDepthTrace) !! 2%nat = Some lj /\
    Depth li = Depth lj /\
    GasUsed li = U64.sub (Gas li) (Gas lj) /\ GasUsed li = 5100.
Proof.
  assert (H0 : logs (runTracer false oogAtDepthTrace) !! 0%nat
               = Some (nth 0 (logs (runTracer false oogAtDepthTrace)) (setGasUsed 0
                   {| PC := 0; Op := 0; Gas := 0; GasCost := 0; GasUsed := 0; Depth := 0;
                      CallToAddress := None; ReturnData := None; Refund := None;
                      Error := None |}))) by (vm_compute; reflexivity).
  eexists _, _. split; [exact H0|].
  split; [vm_compute; reflexivity|].
  split; [vm_compute; reflexivity|].
  split; [|vm_compute; reflexivity].
  apply (structlog_gas_used_same_frame false oogAtDepthTrace 0 2); [exact H0| | lia | | ].
  - vm_compute. reflexivity.
  - vm_compute. reflexivity.
  - intros k lk Hk Hlk. assert (k = 1%nat) as -> by lia.
    vm_compute in Hlk. injection Hlk as <-. simpl. lia.
Defined.

(** ** Further properties of the gas functions, the tracer and the jump table *)

(** X2: For every uint64 size n, [toWordSize] (memory words) and
    [intrinsicToWordSize] (calldata words) both equal ceil(n/32) = (n+31)/32,
    with no wrap-around near 2^64, and 32 words cover n with less than one
    word to spare. *)
Theorem toWordSize_is_ceiling (n : Z) (Hn : U64.valid n) :
  toWordSize n = (n + 31) / 32 /\ intrinsicToWordSize n = (n + 31) / 32 /\
  32 * toWordSize n - 32 < n <= 32 * toWordSize n.
Proof.
  unfold U64.valid, U64.MAX in Hn.
  assert (E : toWordSize n = (n + 31) / 32).
  { unfold toWordSize, U64.MAX. destruct (Z.ltb_spec (2 ^ 64 - 1 - 31) n); [|reflexivity].
    change (2 ^ 64) with 18446744073709551616 in *.
    change ((18446744073709551616 - 1) / 32 + 1) with 576460752303423488.
    Z.div_mod_to_equations. lia. }
  split; [exact E|]. split.
  - exact E.
  - rewrite E. Z.div_mod_to_equations. lia.
Qed.

Lemma toWordSize_is_ceiling_witness :
  U64.valid U64.MAX /\ toWordSize U64.MAX = 2 ^ 59.
Proof.
  assert (H : U64.valid U64.MAX) by (split; vm_compute; discriminate).
  split; [exact H|].
  destruct (toWordSize_is_ceiling U64.MAX H) as (E & _ & _).
  rewrite E. vm_compute. reflexivity.
Defined.

(** X3: Converting a custom schedule with [ToVMGasSchedule] keeps every
    lookup: [GetOr] on the converted schedule returns what [Get] returns on
    the original, for every key and default; and the conversion gives nil
    exactly when the schedule has no overrides. *)
Theorem ToVMGasSchedule_preserves_lookups :
  (forall c key d, GetOr (ToVMGasSchedule c) key d = Get c key d) /\
  (forall c, ToVMGasSchedule c = None <-> HasOverrides c = false).
Proof.
  split.
  - intros [[[m|]]|] key d; simpl; try reflexivity.
    destruct (Nat.eqb_spec (size m) 0) as [E|E]; simpl; [|reflexivity].
    apply map_size_empty_iff in E. subst m. rewrite lookup_empty. reflexivity.
  - intros [[[m|]]|]; simpl; try tauto.
    destruct (Nat.eqb_spec (size m) 0) as [E|E]; simpl.
    + rewrite E. simpl. tauto.
    + destruct (size m) as [|k]; [lia|]. simpl. split; discriminate.
Qed.

Lemma GetOr_without_intrinsic_keys g k d :
  HasIntrinsicOverrides g = false -> In k intrinsicKeys -> GetOr g k d = GetOr None k d.
Proof.
  intros H Hk. destruct g as [[[m|]]|]; try reflexivity.
  change (existsb (fun key => bool_decide (is_Some (m !! key))) intrinsicKeys = false) in H.
  cbn [GetOr Overrides].
  destruct (m !! k) eqn:E; [|reflexivity].
  exfalso.
  assert (Ht : existsb (fun key => bool_decide (is_Some (m !! key))) intrinsicKeys = true).
  { apply existsb_exists. exists k. split; [exact Hk|].
    apply bool_decide_eq_true. rewrite E. eauto. }
  congruence.
Qed.

(** X4: A schedule without any of the nine TX_* keys ([HasIntrinsicOverrides]
    false) gives the same custom intrinsic gas as no schedule at all, whatever
    other keys (MEMORY, SLOAD_COLD, ...) it sets. *)
Theorem intrinsic_gas_ignores_non_intrinsic_keys g data accessListLen storageKeysLen
    isContractCreation isEIP2 isEIP2028 isEIP3860 isEIP7623 isAATxn authorizationsLen :
  HasIntrinsicOverrides g = false ->
  CalcCustomIntrinsicGas g data accessListLen storageKeysLen isContractCreation isEIP2
    isEIP2028 isEIP3860 isEIP7623 isAATxn authorizationsLen =
  CalcCustomIntrinsicGas None data accessListLen storageKeysLen isContractCreation isEIP2
    isEIP2028 isEIP3860 isEIP7623 isAATxn authorizationsLen.
Proof.
  intros H. unfold CalcCustomIntrinsicGas.
  rewrite !(GetOr_without_intrinsic_keys g _ _ H) by (simpl; tauto).
  reflexivity.
Qed.

Lemma intrinsic_gas_ignores_non_intrinsic_keys_witness :
  HasIntrinsicOverrides memoryOnlySchedule = false /\
  CalcCustomIntrinsicGas memoryOnlySchedule [Byte.x01] 0 0 false true true true true false 0
  = (21016, 21040).
Proof.
  assert (H : HasIntrinsicOverrides memoryOnlySchedule = false) by (vm_compute; reflexivity).
  split; [exact H|].
  rewrite (intrinsic_gas_ignores_non_intrinsic_keys memoryOnlySchedule _ _ _ _ _ _ _ _ _ _ H).
  vm_compute. reflexivity.
Defined.

Lemma toWordSize_ceil (n : Z) : U64.valid n -> toWordSize n = (n + 31) / 32.
Proof.
  unfold U64.valid, U64.MAX. intros Hn.
  unfold toWordSize, U64.MAX. destruct (Z.ltb_spec (2 ^ 64 - 1 - 31) n); [|reflexivity].
  change (2 ^ 64) with 18446744073709551616 in *.
  change ((18446744073709551616 - 1) / 32 + 1) with 576460752303423488.
  Z.div_mod_to_equations. lia.
Qed.

(** X5: For a uint64 memory size n, [memoryGasCost] is 0 for n = 0, an
    overflow error (state unchanged) above 0x1FFFFFFFE0, and otherwise, with w
    = ceil(n/32) and total = 3w + w*w/512 computed without wrap-around,
    charges total minus the previous [lastGasCost] and records total as the
    new [lastGasCost] when the memory is shorter than 32w, and charges 0
    otherwise. *)
Theorem memoryGasCost_no_wrap (n : Z) (s : CallState) :
  U64.valid n ->
  memoryGasCost n s =
    if n =? 0 then (inl 0, s)
    else if 0x1FFFFFFFE0 <? n then (inr ErrGasUintOverflow, s)
    else
      let w := (n + 31) / 32 in
      let total := 3 * w + w * w / 512 in
      if memLen (memory s) <? 32 * w then
        (inl (U64.sub total (lastGasCost (memory s))),
         {| addressAccessList := addressAccessList s; callGasTemp := callGasTemp s;
            memory := {| memLen := memLen (memory s); lastGasCost := total |} |})
      else (inl 0, s).
Proof.
  intros Hn. unfold memoryGasCost.
  destruct (Z.eqb_spec n 0) as [->|Hn0]; [reflexivity|].
  destruct (Z.ltb_spec 0x1FFFFFFFE0 n) as [Hb|Hb]; [reflexivity|].
  rewrite (toWordSize_ceil n Hn).
  set (w := (n + 31) / 32).
  assert (Hw : 0 <= w <= 4294967295)
    by (unfold U64.valid in Hn; subst w; Z.div_mod_to_equations; lia).
  assert (Hww : 0 <= w * w <= 4294967295 * 4294967295) by nia.
  unfold U64.mul, U64.add, U64.modulus, params.MemoryGas, params.QuadCoeffDiv.
  change (2 ^ 64) with 18446744073709551616.
  rewrite (Z.mod_small (w * 32)) by lia.
  rewrite (Z.mod_small (w * w)) by lia.
  rewrite (Z.mod_small (w * 3)) by lia.
  rewrite (Z.mod_small (w * 3 + w * w / 512)) by (Z.div_mod_to_equations; lia).
  unfold gbind, gget, gput, gret. simpl.
  rewrite (Z.mul_comm w 32), (Z.mul_comm w 3).
  destruct (memLen (memory s) <? 32 * w); reflexivity.
Qed.

(** X6: When [lastGasCost] is a uint64, a successful [memoryGasCost] call
    changes only [lastGasCost], raising it by exactly the fee charged (uint64
    addition); a failing call leaves the state unchanged; and asking again for
    the same size right after charges 0 (or fails the same way). *)
Theorem memoryGasCost_accounting (n : Z) (s : CallState) :
  U64.valid (lastGasCost (memory s)) ->
  (match memoryGasCost n s with
   | (inl fee, s') =>
       addressAccessList s' = addressAccessList s /\ callGasTemp s' = callGasTemp s /\
       memLen (memory s') = memLen (memory s) /\
       lastGasCost (memory s') = U64.add (lastGasCost (memory s)) fee
   | (inr _, s') => s' = s
   end) /\
  memoryGasCost n (snd (memoryGasCost n s)) =
    match memoryGasCost n s with
    | (inl _, s') => (inl 0, s')
    | (inr e, s') => (inr e, s')
    end.
Proof.
  intros Hl. unfold U64.valid, U64.MAX in Hl.
  unfold memoryGasCost, gbind, gget, gput, gret.
  destruct (n =? 0).
  { simpl. unfold U64.add, U64.modulus. rewrite Z.add_0_r, Z.mod_small by lia. tauto. }
  destruct (0x1FFFFFFFE0 <? n); [simpl; tauto|].
  set (w := toWordSize n).
  set (T := U64.add (U64.mul w params.MemoryGas) (U64.mul w w / params.QuadCoeffDiv)).
  destruct (memLen (memory s) <? U64.mul w 32) eqn:E; simpl.
  - rewrite E. split.
    + split; [reflexivity|]. split; [reflexivity|]. split; [reflexivity|].
      unfold U64.add at 1; unfold U64.sub. rewrite Zplus_mod_idemp_r.
      replace (lastGasCost (memory s) + (T - lastGasCost (memory s))) with T by lia.
      unfold T, U64.add. rewrite Zmod_mod. reflexivity.
    + unfold U64.sub. rewrite Z.sub_diag. reflexivity.
  - rewrite E. unfold U64.add, U64.modulus. rewrite Z.add_0_r, Z.mod_small by lia. tauto.
Qed.

Lemma memoryGasCost_fee_valid n s fee s' :
  memoryGasCost n s = (inl fee, s') -> U64.valid fee.
Proof.
  unfold memoryGasCost, gbind, gget, gput, gret, gfail, U64.valid, U64.MAX.
  destruct (n =? 0); [intros H; inversion H; lia|].
  destruct (0x1FFFFFFFE0 <? n); [discriminate|].
  destruct (memLen (memory s) <? U64.mul (toWordSize n) 32);
    intros H; inversion H; subst; [|lia].
  unfold U64.sub, U64.modulus.
  pose proof (Z.mod_pos_bound (U64.add (U64.mul (toWordSize n) params.MemoryGas)
     (U64.mul (toWordSize n) (toWordSize n) / params.QuadCoeffDiv) - lastGasCost (memory s))
     (2 ^ 64) ltac:(lia)). lia.
Qed.

Lemma safeAddM_exact a b s :
  0 <= a -> 0 <= b ->
  safeAddM a b s = if a + b <=? U64.MAX then (inl (a + b), s) else (inr ErrGasUintOverflow, s).
Proof.
  intros Ha Hb. unfold safeAddM, U64.SafeAdd, U64.add, U64.modulus, gfail, gret.
  destruct (Z.ltb_spec U64.MAX (a + b)); destruct (Z.leb_spec (a + b) U64.MAX); try lia;
    [reflexivity|].
  unfold U64.MAX in *. rewrite Z.mod_small by lia. reflexivity.
Qed.

Lemma SafeMul_exact a b :
  0 <= a -> 0 <= b ->
  U64.SafeMul a b = if a * b <=? U64.MAX then (a * b, false) else (U64.mul a b, true).
Proof.
  intros Ha Hb. unfold U64.SafeMul, U64.mul, U64.modulus.
  destruct (Z.ltb_spec U64.MAX (a * b)); destruct (Z.leb_spec (a * b) U64.MAX); try lia;
    [reflexivity|].
  unfold U64.MAX in *. rewrite Z.mod_small by lia. reflexivity.
Qed.

Lemma mod64_small v : 0 <= v < 2 ^ 64 -> v mod 2 ^ 64 = v.
Proof. apply Z.mod_small. Qed.

(** The part of the copy and KECCAK256 gas functions after the memory
    expansion. *)
Lemma perWord_tail_exact (mem v wordGas : Z) (s : CallState) :
  U64.valid mem -> U64.valid wordGas -> 0 <= v ->
  (let '(words, overflow) := Uint64WithOverflow v in
   if overflow then gfail ErrGasUintOverflow
   else
     let '(words, overflow) := U64.SafeMul (toWordSize words) wordGas in
     if overflow then gfail ErrGasUintOverflow
     else safeAddM mem words) s
  = if 2 ^ 64 <=? v then (inr ErrGasUintOverflow, s)
    else let total := mem + (v + 31) / 32 * wordGas in
         if total <=? U64.MAX then (inl total, s) else (inr ErrGasUintOverflow, s).
Proof.
  intros Hm Hw Hv. unfold Uint64WithOverflow.
  destruct (Z.leb_spec (2 ^ 64) v) as [Hb|Hb]; [reflexivity|].
  rewrite mod64_small by lia.
  rewrite toWordSize_ceil by (unfold U64.valid, U64.MAX; lia).
  assert (Hc : 0 <= (v + 31) / 32) by (apply Z.div_pos; lia).
  unfold U64.valid in Hm, Hw.
  rewrite SafeMul_exact by lia.
  destruct (Z.leb_spec ((v + 31) / 32 * wordGas) U64.MAX).
  - rewrite safeAddM_exact by nia. reflexivity.
  - unfold gfail. cbv zeta.
    destruct (Z.leb_spec (mem + (v + 31) / 32 * wordGas) U64.MAX); [lia|reflexivity].
Qed.

(** X7: For a uint64 per-word gas and non-negative stack words, the custom
    copy gas and KECCAK256 gas are the memory expansion fee plus ceil(size/32)
    * wordGas computed exactly, where size is the stack word the function
    reads (position stackpos for copies, 1 for KECCAK256); a size of 2^64 or
    more, or a total above 2^64-1, is an overflow error. *)
Theorem copy_and_keccak256_gas_exact (stackpos : nat) (wordGas : Z) (Back : nat -> Z)
    (scopeGas memorySize : Z) (s : CallState) :
  U64.valid wordGas -> (forall k, 0 <= Back k) ->
  let perWordGas (v : Z) :=
    match memoryGasCost memorySize s with
    | (inr e, s') => (inr e, s')
    | (inl mem, s') =>
        if 2 ^ 64 <=? v then (inr ErrGasUintOverflow, s')
        else
          let total := mem + (v + 31) / 32 * wordGas in
          if total <=? U64.MAX then (inl total, s') else (inr ErrGasUintOverflow, s')
    end in
  makeCustomCopyGas stackpos wordGas Back scopeGas memorySize s = perWordGas (Back stackpos) /\
  makeCustomKeccak256Gas wordGas Back scopeGas memorySize s = perWordGas (Back 1%nat).
Proof.
  intros Hw Hb perWordGas. subst perWordGas. cbv beta.
  unfold makeCustomCopyGas, makeCustomKeccak256Gas, gbind.
  destruct (memoryGasCost memorySize s) as [[mem|e] s'] eqn:M; [|split; reflexivity].
  pose proof (memoryGasCost_fee_valid _ _ _ _ M) as Hm.
  split; apply perWord_tail_exact; auto.
Qed.

(** X8: For uint64 base and data gas whose topics product numTopics*topicGas
    fits in a uint64, the custom LOG gas fails with an overflow error if the
    data size (stack word 1) is 2^64 or more before looking at memory;
    otherwise it is memory fee + base + numTopics*topicGas + size*dataGas
    computed exactly, or an overflow error when that exceeds 2^64-1. *)
Theorem log_gas_exact (numTopics baseGas topicGas dataGas : Z) (Back : nat -> Z)
    (scopeGas memorySize : Z) (s : CallState) :
  U64.valid baseGas -> U64.valid dataGas -> 0 <= numTopics -> 0 <= topicGas ->
  numTopics * topicGas <= U64.MAX -> 0 <= Back 1%nat ->
  makeCustomLogGas numTopics baseGas topicGas dataGas Back scopeGas memorySize s =
    if 2 ^ 64 <=? Back 1%nat then (inr ErrGasUintOverflow, s)
    else
      match memoryGasCost memorySize s with
      | (inr e, s') => (inr e, s')
      | (inl mem, s') =>
          let total := mem + baseGas + numTopics * topicGas + Back 1%nat * dataGas in
          if total <=? U64.MAX then (inl total, s') else (inr ErrGasUintOverflow, s')
      end.
Proof.
  intros Hbase Hdata Hn Ht Hnt Hv. unfold U64.valid in *.
  unfold makeCustomLogGas, Uint64WithOverflow.
  destruct (Z.leb_spec (2 ^ 64) (Back 1%nat)) as [Hb|Hb]; [reflexivity|].
  rewrite mod64_small by lia.
  set (v := Back 1%nat) in *.
  unfold gbind.
  destruct (memoryGasCost memorySize s) as [[mem|e] s'] eqn:M; [|reflexivity].
  pose proof (memoryGasCost_fee_valid _ _ _ _ M) as Hm. unfold U64.valid in Hm.
  rewrite safeAddM_exact by lia.
  destruct (Z.leb_spec (mem + baseGas) U64.MAX); cbv zeta;
    [|destruct (Z.leb_spec (mem + baseGas + numTopics * topicGas + v * dataGas) U64.MAX);
      [nia|reflexivity]].
  assert (Et : U64.mul numTopics topicGas = numTopics * topicGas)
    by (unfold U64.mul, U64.modulus, U64.MAX in *; apply Z.mod_small; nia).
  rewrite Et, safeAddM_exact by nia.
  destruct (Z.leb_spec (mem + baseGas + numTopics * topicGas) U64.MAX);
    [|destruct (Z.leb_spec (mem + baseGas + numTopics * topicGas + v * dataGas) U64.MAX);
      [nia|reflexivity]].
  rewrite SafeMul_exact by lia.
  destruct (Z.leb_spec (v * dataGas) U64.MAX).
  - rewrite safeAddM_exact by nia. reflexivity.
  - unfold gfail.
    destruct (Z.leb_spec (mem + baseGas + numTopics * topicGas + v * dataGas) U64.MAX);
      [nia|reflexivity].
Qed.

(** X9: For an exponent below 2^256 and parameters with 32*byteGas + base in
    uint64 range, the custom EXP gas never fails and charges base +
    byteGas*len, where len is the exponent's byte length (0 for exponent 0,
    otherwise the least len with exponent < 256^len). *)
Theorem exp_gas_byte_length (baseGas byteGas : Z) (Back : nat -> Z)
    (scopeGas memorySize : Z) (s : CallState) :
  0 <= Back 1%nat < 2 ^ 256 -> U64.valid baseGas -> 0 <= byteGas ->
  32 * byteGas + baseGas <= U64.MAX ->
  exists len, 0 <= len <= 32 /\ Back 1%nat < 2 ^ (8 * len) /\
    (len = 0 \/ 2 ^ (8 * (len - 1)) <= Back 1%nat) /\
    makeCustomExpGas baseGas byteGas Back scopeGas memorySize s
    = (inl (baseGas + byteGas * len), s).
Proof.
  intros Hv Hbase Hbyte Hsum. unfold U64.valid in Hbase.
  set (v := Back 1%nat) in *.
  assert (Hlen : exists len, BitLenToByteLen (BitLen v) = len /\ 0 <= len <= 32 /\
            v < 2 ^ (8 * len) /\ (len = 0 \/ 2 ^ (8 * (len - 1)) <= v)).
  { unfold BitLenToByteLen, BitLen.
    destruct (Z.eqb_spec v 0) as [E|E].
    - exists 0. rewrite E. split; [reflexivity|]. split; [lia|].
      split; [simpl; lia|]. left; reflexivity.
    - assert (Hp : 0 < v) by lia.
      pose proof (Z.log2_spec v Hp) as [Hlo Hhi].
      assert (HL : Z.log2 v < 256) by (apply Z.log2_lt_pow2; lia).
      pose proof (Z.log2_nonneg v).
      exists ((Z.log2 v + 1 + 7) / 8). split; [reflexivity|].
      assert (H8 : 1 <= (Z.log2 v + 1 + 7) / 8 <= 32) by (Z.div_mod_to_equations; lia).
      split; [lia|]. split.
      + apply Z.lt_le_trans with (2 ^ Z.succ (Z.log2 v)); [exact Hhi|].
        apply Z.pow_le_mono_r; [lia|]. Z.div_mod_to_equations; lia.
      + right. apply Z.le_trans with (2 ^ Z.log2 v); [|exact Hlo].
        apply Z.pow_le_mono_r; [lia|]. Z.div_mod_to_equations; lia. }
  destruct Hlen as (len & Elen & Hb & Hlt & Hge).
  exists len. split; [exact Hb|]. split; [exact Hlt|]. split; [exact Hge|].
  unfold makeCustomExpGas. fold v. rewrite Elen.
  assert (Em : U64.mul len byteGas = len * byteGas)
    by (unfold U64.mul, U64.modulus, U64.MAX in *; apply Z.mod_small; nia).
  rewrite Em, safeAddM_exact by nia.
  destruct (Z.leb_spec (len * byteGas + baseGas) U64.MAX); [|nia].
  f_equal. f_equal. lia.
Qed.

Lemma U64_add_absorb_0 c x : U64.add c (U64.add 0 x) = U64.add c x.
Proof. unfold U64.add. rewrite Z.add_0_l, Zplus_mod_idemp_r. reflexivity. Qed.

(** X10: For a storage slot not yet in the access list, the custom SLOAD gas
    charges the cold cost and warms the slot, so the next SLOAD of it charges
    the warm cost; and an SSTORE run before that SLOAD charges COLD_SLOAD on
    top of exactly what the same SSTORE charges after it. *)
Theorem sload_moves_cold_cost_off_sstore (coldCost warmCost : Z) (p : sstoreGasParams)
    (GetState GetCommittedState : Z -> Z) (addr loc y scopeGas : Z) (s : IntraBlockState) :
  (addr, loc) ∉ slotAccessList s ->
  let s1 := snd (makeCustomSloadGas coldCost warmCost addr loc s) in
  let r := makeCustomSstoreGas p GetState GetCommittedState addr loc y scopeGas s1 in
  fst (makeCustomSloadGas coldCost warmCost addr loc s) = (coldCost, None) /\
  fst (makeCustomSloadGas coldCost warmCost addr loc s1) = (warmCost, None) /\
  (sentryGas p < scopeGas ->
   makeCustomSstoreGas p GetState GetCommittedState addr loc y scopeGas s
   = ((U64.add (coldSloadCost p) (fst (fst r)), snd (fst r)), snd r)).
Proof.
  intros Hn s1 r.
  assert (Ein : (addr, loc) ∈ slotAccessList s1)
    by (subst s1; unfold makeCustomSloadGas, AddSlotToAccessList; simpl;
        destruct (bool_decide _); simpl; set_solver).
  assert (Es1 : s1 = {| slotAccessList := {[(addr, loc)]} ∪ slotAccessList s;
                        refundCounter := refundCounter s |})
    by (subst s1; unfold makeCustomSloadGas, AddSlotToAccessList; simpl;
        destruct (bool_decide _); reflexivity).
  split; [|split].
  - unfold makeCustomSloadGas, AddSlotToAccessList. rewrite bool_decide_false by exact Hn.
    reflexivity.
  - unfold makeCustomSloadGas, AddSlotToAccessList. rewrite bool_decide_true by exact Ein.
    reflexivity.
  - intros Hg. subst r. unfold makeCustomSstoreGas.
    destruct (Z.leb_spec scopeGas (sentryGas p)); [lia|].
    unfold AddSlotToAccessList at 1 2.
    rewrite (bool_decide_false _ Hn), (bool_decide_true _ Ein). simpl.
    assert (Eu : {[(addr, loc)]} ∪ slotAccessList s1
                 = {[(addr, loc)]} ∪ slotAccessList s) by (rewrite Es1; simpl; set_solver).
    rewrite Eu. rewrite Es1. simpl.
    repeat match goal with
           | |- context [if ?b then _ else _] => destruct b
           end; simpl; rewrite ?U64_add_absorb_0; reflexivity.
Qed.

(** X11: Writing a new value v to a slot whose current and original value is
    o, then writing o back (both above the sentry), has the first write
    succeed and the second charge the warm read cost; over the two writes the
    refund counter rises by SSTORE_SET - SLOAD_WARM if o = 0 and by
    SSTORE_RESET - SLOAD_COLD - SLOAD_WARM otherwise (saturating subtractions,
    uint64 addition). *)
Theorem sstore_write_then_restore_refund (p : sstoreGasParams)
    (GetState1 GetState2 GetCommittedState : Z -> Z)
    (addr x o v scopeGas1 scopeGas2 : Z) (s : IntraBlockState) :
  GetCommittedState x = o -> GetState1 x = o -> GetState2 x = v -> v <> o ->
  U64.valid (refundCounter s) -> U64.valid (warmReadCost p) ->
  sentryGas p < scopeGas1 -> sentryGas p < scopeGas2 ->
  let '(r1, s1) := makeCustomSstoreGas p GetState1 GetCommittedState addr x v scopeGas1 s in
  let '(r2, s2) := makeCustomSstoreGas p GetState2 GetCommittedState addr x o scopeGas2 s1 in
  snd r1 = None /\ r2 = (warmReadCost p, None) /\
  refundCounter s2 = U64.add (refundCounter s)
    (if o =? 0 then safeSub (setGas p) (warmReadCost p)
     else safeSub (safeSub (resetGas p) (coldSloadCost p)) (warmReadCost p)).
Proof.
  intros Ho H1 H2 Hvo Hr Hw Hg1 Hg2.
  unfold makeCustomSstoreGas.
  destruct (Z.leb_spec scopeGas1 (sentryGas p)); [lia|].
  destruct (Z.leb_spec scopeGas2 (sentryGas p)); [lia|].
  rewrite H1, H2, Ho, Z.eqb_refl.
  unfold AddSlotToAccessList. simpl.
  assert (Ew : U64.add 0 (warmReadCost p) = warmReadCost p)
    by (unfold U64.add, U64.modulus, U64.valid, U64.MAX in *;
        rewrite Z.add_0_l, Z.mod_small by lia; reflexivity).
  repeat (match goal with
          | |- context [bool_decide (?e ∈ {[?e]} ∪ ?X)] =>
              rewrite (bool_decide_true (e ∈ {[e]} ∪ X)) by set_solver
          | |- context [if (?a =? ?b) then _ else _] =>
              destruct (Z.eqb_spec a b); try congruence
          end; simpl).
  - rewrite Ew. auto.
  - rewrite Ew. split; [reflexivity|]. split; [reflexivity|].
    unfold U64.add, U64.sub, U64.modulus, U64.valid, U64.MAX in *.
    rewrite Zminus_mod_idemp_l.
    replace (refundCounter s + clearingRefund p - clearingRefund p)
      with (refundCounter s) by lia.
    rewrite (Z.mod_small (refundCounter s)) by lia. reflexivity.
  - rewrite Ew. auto.
Qed.

Lemma keeps_gret {A} (a : A) : keepsAccessList (gret a).
Proof. intros s. reflexivity. Qed.

Lemma keeps_gfail {A} e : keepsAccessList (@gfail A e).
Proof. intros s. reflexivity. Qed.

Lemma keeps_gbind {A B} (m : GasM A) (k : A -> GasM B) :
  keepsAccessList m -> (forall a, keepsAccessList (k a)) -> keepsAccessList (gbind m k).
Proof.
  intros Hm Hk s. unfold gbind. specialize (Hm s).
  destruct (m s) as [[a|e] s'] eqn:E; simpl in *; [rewrite Hk|]; exact Hm.
Qed.

Lemma keeps_memoryGasCost n : keepsAccessList (memoryGasCost n).
Proof.
  intros s. unfold memoryGasCost, gbind, gget, gput, gret, gfail.
  destruct (n =? 0); [reflexivity|]. destruct (_ <? n); [reflexivity|].
  destruct (_ <? _); reflexivity.
Qed.

Lemma keeps_safeAddM a b : keepsAccessList (safeAddM a b).
Proof. intros s. unfold safeAddM. destruct (U64.SafeAdd a b) as [r []]; reflexivity. Qed.

Lemma keeps_childGasM env g gas : keepsAccessList (childGasM env g gas).
Proof.
  unfold childGasM. destruct (callGas _ _ _ _) as [c [e|]].
  - apply keeps_gfail.
  - apply keeps_gbind; [intros s; reflexivity|]. intros _. apply keeps_safeAddM.
Qed.

Create HintDb keeps.

#[local] Hint Resolve keeps_gret keeps_gfail keeps_gbind keeps_memoryGasCost
  keeps_safeAddM keeps_childGasM : keeps.

Lemma keeps_callInner op p env g m : keepsAccessList (callInner op p env g m).
Proof.
  destruct op; simpl.
  - unfold gasCallInner. destruct (if IsSpuriousDragon env then _ else _);
      eauto 6 with keeps.
  - unfold gasCallCodeInner. eauto 6 with keeps.
  - unfold gasDelegateCallInner. eauto with keeps.
  - unfold gasStaticCallInner. eauto with keeps.
Qed.

Lemma callDynamicGas_warms op p env g m s :
  Bytes20 (Back1 env) ∈ addressAccessList (snd (callDynamicGas op p env g m s)).
Proof.
  assert (H : forall inner : Z -> Z -> GasM Z,
            (forall g m, keepsAccessList (inner g m)) ->
            Bytes20 (Back1 env) ∈ addressAccessList
              (snd (callVariantEIP2929 (coldAccessCost p) (warmAccessCost p) inner env g m s))).
  { intros inner Hi.
    unfold callVariantEIP2929, AddAddressToAccessList, gbind, gget, gput, gret, gfail.
    cbn [snd fst addressAccessList callGasTemp memory].
    set (s0 := {| addressAccessList := {[Bytes20 (Back1 env)]} ∪ addressAccessList s;
                  callGasTemp := callGasTemp s; memory := memory s |}).
    assert (H0 : Bytes20 (Back1 env) ∈ addressAccessList s0)
      by (subst s0; cbn [addressAccessList]; set_solver).
    destruct (negb (bool_decide _)).
    - destruct (g <? safeSub (coldAccessCost p) (warmAccessCost p)); [exact H0|].
      pose proof (Hi (g - safeSub (coldAccessCost p) (warmAccessCost p)) m s0) as K.
      destruct (inner (g - safeSub (coldAccessCost p) (warmAccessCost p)) m s0)
        as [[a|e] s'] eqn:E; cbn [snd] in K |- *; rewrite K; exact H0.
    - pose proof (Hi g m s0) as K. rewrite K. exact H0. }
  destruct op; apply H; intros g' m';
    [apply (keeps_callInner CALL p env) | apply (keeps_callInner CALLCODE p env)
    | apply (keeps_callInner DELEGATECALL p env) | apply (keeps_callInner STATICCALL p env)].
Qed.

(** X12: After any of the custom CALL-family gas functions has run for a
    target address, a later CALL-family gas function for the same address
    charges no cold surcharge: it is exactly the inner (warm) gas computation. *)
Theorem call_target_warm_after_any_call (op1 op2 : CallOp) (p : callGasParams)
    (env1 env2 : CallEnv) (scopeGas1 memorySize1 scopeGas2 memorySize2 : Z) (s : CallState) :
  Bytes20 (Back1 env1) = Bytes20 (Back1 env2) ->
  let s1 := snd (callDynamicGas op1 p env1 scopeGas1 memorySize1 s) in
  callDynamicGas op2 p env2 scopeGas2 memorySize2 s1
  = callInner op2 p env2 scopeGas2 memorySize2 s1.
Proof.
  intros Ha s1.
  assert (Hin : Bytes20 (Back1 env2) ∈ addressAccessList s1)
    by (rewrite <- Ha; apply callDynamicGas_warms).
  destruct op2; apply (callVariantEIP2929_spec _ _ _ env2 scopeGas2 memorySize2 s1); exact Hin.
Qed.

Lemma fmap_alter_same {A B} (g : A -> B) (f : A -> A) (k : nat) (l : list A) :
  (forall x, g (f x) = g x) -> g <$> alter f k l = g <$> l.
Proof.
  intros Hf. apply list_eq. intros i. rewrite !list_lookup_fmap, list_lookup_alter.
  case_decide as Hk; [subst i|reflexivity].
  destruct (l !! k); [|reflexivity]. cbn. f_equal. apply Hf.
Qed.

Lemma logView_updatePendingGasUsed depth g p ls :
  logView <$> snd (updatePendingGasUsed depth g p ls) = logView <$> ls.
Proof.
  unfold updatePendingGasUsed.
  destruct (_ !! depth) as [prevIdx|]; [|reflexivity].
  destruct (_ && _); [|reflexivity]. simpl.
  apply fmap_alter_same. intros x. reflexivity.
Qed.

Lemma logView_resolvePendingCreates cd stack pcs ls :
  logView <$> snd (resolvePendingCreates cd stack pcs ls) = logView <$> ls.
Proof.
  revert ls. induction pcs as [|pc rest IH]; intros ls; simpl; [reflexivity|].
  destruct (Nat.leb cd (pcDepth pc)); [|reflexivity].
  rewrite IH. destruct (last stack); [|reflexivity].
  apply fmap_alter_same. intros x. reflexivity.
Qed.

Lemma logView_step t ev :
  exists new, logView <$> logs (tracerStep t ev) = (logView <$> logs t) ++ new /\
              length new = (if isOpcodeEvent ev then 1 else 0)%nat.
Proof.
  destruct ev as [|g e|d o e|pc op gas cost stack rData depth e rn]; simpl.
  - exists []. rewrite app_nil_r. auto.
  - exists []. rewrite app_nil_r. destruct e; auto.
  - exists []. rewrite app_nil_r. unfold OnExit. destruct (negb _); auto.
  - unfold OnOpcode.
    pose proof (logView_updatePendingGasUsed depth gas (pendingIdx t) (logs t)) as U.
    destruct (updatePendingGasUsed depth gas (pendingIdx t) (logs t)) as [pending logs1].
    simpl in U.
    pose proof (logView_resolvePendingCreates depth stack (pendingCreates t) logs1) as R.
    destruct (resolvePendingCreates depth stack (pendingCreates t) logs1) as [pcs logs2].
    simpl in R. simpl.
    eexists. rewrite fmap_app, R, U. split; [reflexivity|]. reflexivity.
Qed.

Lemma logView_fold evs t :
  exists new, logView <$> logs (fold_left tracerStep evs t) = (logView <$> logs t) ++ new /\
              length (logs (fold_left tracerStep evs t))
              = (length (logs t) + length (List.filter isOpcodeEvent evs))%nat.
Proof.
  revert t. induction evs as [|ev evs IH]; intros t; simpl.
  - exists []. rewrite app_nil_r. split; [reflexivity|lia].
  - destruct (logView_step t ev) as (new1 & E1 & L1).
    destruct (IH (tracerStep t ev)) as (new2 & E2 & L2).
    exists (new1 ++ new2). split.
    + rewrite E2, E1, app_assoc. reflexivity.
    + rewrite L2.
      assert (Hl : length (logs (tracerStep t ev)) = (length (logs t) + length new1)%nat).
      { rewrite <- (length_fmap logView (logs (tracerStep t ev))), E1, length_app,
                length_fmap. reflexivity. }
      rewrite Hl, L1. destruct (isOpcodeEvent ev); simpl; lia.
Qed.

(** X13: Once the tracer has recorded a log entry, later hook calls never
    change its pc, op, gas, gas cost, depth, return data, refund or error
    (only gas_used and the call target may be filled in later), and the tracer
    holds exactly one log entry per OnOpcode call. *)
Theorem recorded_log_fields_never_change (cfg : bool) (evs1 evs2 : list TracerEvent) :
  (logView <$> logs (runTracer cfg evs1))
    `prefix_of` (logView <$> logs (runTracer cfg (evs1 ++ evs2))) /\
  length (logs (runTracer cfg evs1)) = length (List.filter isOpcodeEvent evs1).
Proof.
  split.
  - unfold runTracer. rewrite fold_left_app.
    destruct (logView_fold evs2 (fold_left tracerStep evs1 (NewStructLogTracer cfg)))
      as (new & E & _).
    rewrite E. exists new. reflexivity.
  - unfold runTracer.
    destruct (logView_fold evs1 (NewStructLogTracer cfg)) as (_ & _ & L).
    rewrite L. reflexivity.
Qed.

(** X14: For a transaction whose hooks end with the top-level OnExit (output
    out, error e1) and OnTxEnd (receipt gas g, error e2), the trace result is
    failed iff e1 or e2 is set, its gas is g unless e2 is set (then the
    earlier value is kept), its return value is out when out is non-empty and
    absent otherwise, and its struct logs are the logs recorded before. *)
Theorem trace_result_of_transaction (cfg : bool) (body : list TracerEvent)
    (out : list Byte.byte) (e1 : option string) (receiptGasUsed : Z) (e2 : option string) :
  let t := runTracer cfg body in
  let tt := GetTraceTransaction
              (runTracer cfg (body ++ [EvExit 0 out e1; EvTxEnd receiptGasUsed e2])) in
  Failed tt = isErr e1 || isErr e2 /\
  TxGas tt = (if isErr e2 then gasUsed t else receiptGasUsed) /\
  ReturnValue tt = (match out with [] => None | _ => Some out end) /\
  Structlogs tt = logs t.
Proof.
  intros t tt. subst tt. unfold runTracer in *. rewrite fold_left_app. fold t.
  simpl. destruct e1, e2, out; simpl; auto.
Qed.

Lemma opcodeList_NoDup_fst : NoDup opcodeList.*1.
Proof. apply (bool_decide_unpack _). vm_compute. reflexivity. Qed.

Lemma opcodeList_NoDup_snd : NoDup opcodeList.*2.
Proof. apply (bool_decide_unpack _). vm_compute. reflexivity. Qed.

Lemma find_snd_NoDup (l : list (string * Z)) (n : string) (v : Z) :
  NoDup l.*2 ->
  (fst <$> List.find (fun p => snd p =? v) l = Some n <-> (n, v) ∈ l).
Proof.
  induction l as [|[n' v'] l IH]; simpl; intros Hnd.
  - split; [discriminate|]. intros H. apply elem_of_nil in H. contradiction.
  - apply NoDup_cons in Hnd as [Hv' Hnd]. rewrite elem_of_cons.
    destruct (Z.eqb_spec v' v) as [->|Hne]; simpl.
    + split.
      * intros H. injection H as ->. left. reflexivity.
      * intros [H|H]; [injection H as ->; reflexivity|].
        exfalso. apply Hv'. apply (list_elem_of_fmap_2 snd) in H. exact H.
    + rewrite IH by exact Hnd. split; [tauto|].
      intros [H|H]; [injection H as -> ->; congruence|exact H].
Qed.

Lemma opcodeNameOf_spec (name : string) (op : Z) :
  opcodeFromString name = Some op <-> opcodeNameOf op = Some name.
Proof.
  unfold opcodeFromString, opcodeMap, opcodeNameOf.
  rewrite find_snd_NoDup by exact opcodeList_NoDup_snd.
  rewrite <- elem_of_list_to_map by exact opcodeList_NoDup_fst.
  reflexivity.
Qed.

Lemma lookup_SetConstantGasAt (K g : Z) (jt : JumpTable) (op : Z) :
  SetConstantGasAt K g jt !! op
  = if bool_decide (K = op) then setConst g <$> jt !! op else jt !! op.
Proof.
  unfold SetConstantGasAt. case_bool_decide as H.
  - subst K. destruct (jt !! op) eqn:E; [|rewrite E; reflexivity].
    unfold JumpTable in *. rewrite lookup_insert_eq. reflexivity.
  - destruct (jt !! K); [|reflexivity]. unfold JumpTable in *.
    rewrite lookup_insert_ne by exact H. reflexivity.
Qed.

Lemma lookup_SetDynamicGasAt (K : Z) (f : CustomDynGas) (jt : JumpTable) (op : Z) :
  SetDynamicGasAt K f jt !! op
  = if bool_decide (K = op) then setDyn f <$> jt !! op else jt !! op.
Proof.
  unfold SetDynamicGasAt. case_bool_decide as H.
  - subst K. destruct (jt !! op) eqn:E; [|rewrite E; reflexivity].
    unfold JumpTable in *. rewrite lookup_insert_eq. reflexivity.
  - destruct (jt !! K); [|reflexivity]. unfold JumpTable in *.
    rewrite lookup_insert_ne by exact H. reflexivity.
Qed.

Lemma constantGasLoop_cons (n : string) (g : Z) (rest : list (string * Z)) (jt : JumpTable) :
  constantGasLoop ((n, g) :: rest) jt
  = constantGasLoop rest (match opcodeFromString n with
                          | Some opcode => SetConstantGasAt opcode g jt
                          | None => jt end).
Proof. reflexivity. Qed.

Lemma opcodeOverride_insert (n : string) (g : Z) (m : gmap string Z) (op : Z) :
  opcodeOverride (<[n := g]> m) op
  = if bool_decide (opcodeFromString n = Some op) then Some g else opcodeOverride m op.
Proof.
  unfold opcodeOverride. case_bool_decide as H.
  - apply opcodeNameOf_spec in H. rewrite H. apply lookup_insert_eq.
  - destruct (opcodeNameOf op) as [n'|] eqn:E; [|reflexivity].
    rewrite lookup_insert_ne; [reflexivity|].
    intros <-. apply H, opcodeNameOf_spec, E.
Qed.

Lemma constantGasLoop_lookup (order : list (string * Z)) (jt : JumpTable) (op : Z) :
  NoDup order.*1 ->
  constantGasLoop order jt !! op
  = (fun o => match opcodeOverride (list_to_map order) op with
              | Some g => setConst g o
              | None => o end) <$> jt !! op.
Proof.
  revert jt. induction order as [|[n g] rest IH]; intros jt Hnd.
  - unfold opcodeOverride. simpl.
    destruct (opcodeNameOf op); rewrite ?lookup_empty; destruct (jt !! op); reflexivity.
  - simpl in Hnd. apply NoDup_cons in Hnd as [Hn Hnd].
    rewrite constantGasLoop_cons, IH by exact Hnd.
    change (list_to_map ((n, g) :: rest) : gmap string Z)
      with (<[n := g]> (list_to_map rest : gmap string Z)).
    rewrite opcodeOverride_insert. case_bool_decide as H.
    + rewrite H, lookup_SetConstantGasAt, bool_decide_true by reflexivity.
      assert (Hr : opcodeOverride (list_to_map rest) op = None).
      { unfold opcodeOverride. apply opcodeNameOf_spec in H. rewrite H.
        apply not_elem_of_list_to_map_1. exact Hn. }
      rewrite Hr. destruct (jt !! op); reflexivity.
    + destruct (opcodeFromString n) as [op'|] eqn:E; [|reflexivity].
      rewrite lookup_SetConstantGasAt, bool_decide_false by congruence. reflexivity.
Qed.

Lemma perm_overrides (order : list (string * Z)) (s : option CustomGasSchedule) :
  order ≡ₚ map_to_list (overridesOf s) ->
  NoDup order.*1 /\ (list_to_map order : gmap string Z) = overridesOf s.
Proof.
  intros Hp.
  assert (Hnd : NoDup order.*1).
  { rewrite Hp. apply NoDup_fst_map_to_list. }
  split; [exact Hnd|].
  rewrite (list_to_map_proper order (map_to_list (overridesOf s))) by assumption.
  apply list_to_map_to_list.
Qed.

Lemma has_overridesOf (s : option CustomGasSchedule) (K : string) :
  has s K = bool_decide (is_Some (overridesOf s !! K)).
Proof.
  destruct s as [c|]; [destruct (CustomOverrides c) eqn:E|]; unfold has, overridesOf;
    rewrite ?E, ?lookup_empty; reflexivity.
Qed.

Lemma Get_overridesOf (s : option CustomGasSchedule) (K : string) (d : Z) :
  Get s K d = match overridesOf s !! K with Some v => v | None => d end.
Proof.
  destruct s as [c|]; [destruct (CustomOverrides c) eqn:E|]; unfold Get, overridesOf;
    rewrite ?E, ?lookup_empty; reflexivity.
Qed.

Lemma constOf_SetDynamicGasAt (K : Z) (f : CustomDynGas) (jt : JumpTable) (op : Z) :
  constOf (SetDynamicGasAt K f jt) op = constOf jt op.
Proof.
  unfold constOf. rewrite lookup_SetDynamicGasAt.
  case_bool_decide; [subst; destruct (jt !! op)|]; reflexivity.
Qed.

Lemma constOf_SetConstantGasAt (K g : Z) (jt : JumpTable) (op : Z) :
  constOf (SetConstantGasAt K g jt) op
  = if bool_decide (K = op) then (fun _ => g) <$> constOf jt op else constOf jt op.
Proof.
  unfold constOf. rewrite lookup_SetConstantGasAt.
  case_bool_decide; [destruct (jt !! op)|]; reflexivity.
Qed.

Ltac dyn_block :=
  repeat match goal with |- context [if ?c then _ else _] => destruct c end;
  cbv zeta; rewrite ?constOf_SetDynamicGasAt; reflexivity.

Lemma constOf_overrideSload s J op : constOf (overrideSload s J) op = constOf J op.
Proof. unfold overrideSload. dyn_block. Qed.
Lemma constOf_overrideSstore s J op : constOf (overrideSstore s J) op = constOf J op.
Proof. unfold overrideSstore. dyn_block. Qed.
Lemma constOf_overrideExp s J op : constOf (overrideExp s J) op = constOf J op.
Proof. unfold overrideExp. dyn_block. Qed.
Lemma constOf_overrideKeccak256Word s J op :
  constOf (overrideKeccak256Word s J) op = constOf J op.
Proof. unfold overrideKeccak256Word. dyn_block. Qed.
Lemma constOf_overrideLog s J op : constOf (overrideLog s J) op = constOf J op.
Proof. unfold overrideLog. dyn_block. Qed.
Lemma constOf_overrideCopy s J op : constOf (overrideCopy s J) op = constOf J op.
Proof. unfold overrideCopy. dyn_block. Qed.

Lemma constOf_constBlock (s : option CustomGasSchedule) (K : string) (opK d : Z)
    (J : JumpTable) (op : Z) :
  constOf (if has s K then SetConstantGasAt opK (Get s K d) J else J) op
  = if bool_decide (opK = op)
    then (fun c => match overridesOf s !! K with Some g => g | None => c end) <$> constOf J op
    else constOf J op.
Proof.
  rewrite has_overridesOf, Get_overridesOf.
  destruct (overridesOf s !! K) eqn:E.
  - rewrite bool_decide_true by (eexists; reflexivity).
    rewrite constOf_SetConstantGasAt. case_bool_decide; [destruct (constOf J op)|]; reflexivity.
  - rewrite bool_decide_false by (intros [? H]; discriminate).
    case_bool_decide; [destruct (constOf J op)|]; reflexivity.
Qed.

Ltac const_block := apply constOf_constBlock.

Lemma constOf_overrideKeccak256 s J op :
  constOf (overrideKeccak256 s J) op
  = if bool_decide (opKECCAK256 = op)
    then (fun c => match overridesOf s !! "KECCAK256" with Some g => g | None => c end)
           <$> constOf J op
    else constOf J op.
Proof. apply constOf_constBlock. Qed.
Lemma constOf_overrideCreate s J op :
  constOf (overrideCreate s J) op
  = if bool_decide (opCREATE = op)
    then (fun c => match overridesOf s !! "CREATE" with Some g => g | None => c end)
           <$> constOf J op
    else constOf J op.
Proof. apply constOf_constBlock. Qed.
Lemma constOf_overrideCreate2 s J op :
  constOf (overrideCreate2 s J) op
  = if bool_decide (opCREATE2 = op)
    then (fun c => match overridesOf s !! "CREATE2" with Some g => g | None => c end)
           <$> constOf J op
    else constOf J op.
Proof. apply constOf_constBlock. Qed.
Lemma constOf_overrideBalance s J op :
  constOf (overrideBalance s J) op
  = if bool_decide (opBALANCE = op)
    then (fun c => match overridesOf s !! "BALANCE" with Some g => g | None => c end)
           <$> constOf J op
    else constOf J op.
Proof. apply constOf_constBlock. Qed.
Lemma constOf_overrideExtcodesize s J op :
  constOf (overrideExtcodesize s J) op
  = if bool_decide (opEXTCODESIZE = op)
    then (fun c => match overridesOf s !! "EXTCODESIZE" with Some g => g | None => c end)
           <$> constOf J op
    else constOf J op.
Proof. apply constOf_constBlock. Qed.
Lemma constOf_overrideExtcodecopy s J op :
  constOf (overrideExtcodecopy s J) op
  = if bool_decide (opEXTCODECOPY = op)
    then (fun c => match overridesOf s !! "EXTCODECOPY" with Some g => g | None => c end)
           <$> constOf J op
    else constOf J op.
Proof. apply constOf_constBlock. Qed.
Lemma constOf_overrideExtcodehash s J op :
  constOf (overrideExtcodehash s J) op
  = if bool_decide (opEXTCODEHASH = op)
    then (fun c => match overridesOf s !! "EXTCODEHASH" with Some g => g | None => c end)
           <$> constOf J op
    else constOf J op.
Proof. apply constOf_constBlock. Qed.
Lemma constOf_overrideSelfdestruct s J op :
  constOf (overrideSelfdestruct s J) op
  = if bool_decide (opSELFDESTRUCT = op)
    then (fun c => match overridesOf s !! "SELFDESTRUCT" with Some g => g | None => c end)
           <$> constOf J op
    else constOf J op.
Proof. apply constOf_constBlock. Qed.

Lemma constOf_overrideCallFamily s J op :
  constOf (overrideCallFamily s J) op
  = if isCallOpcode op && (has s "CALL_COLD" || has s "CALL_WARM"
                           || has s "CALL_VALUE_XFER" || has s "CALL_NEW_ACCOUNT")
    then (fun _ => Get s "CALL_WARM" params.WarmStorageReadCostEIP2929) <$> constOf J op
    else constOf J op.
Proof.
  unfold overrideCallFamily.
  destruct (has s "CALL_COLD" || has s "CALL_WARM"
            || has s "CALL_VALUE_XFER" || has s "CALL_NEW_ACCOUNT").
  - cbv zeta. rewrite andb_true_r.
    repeat (rewrite constOf_SetDynamicGasAt || rewrite constOf_SetConstantGasAt).
    destruct (decide (op = opCALL)) as [->|n1]; [reflexivity|].
    destruct (decide (op = opCALLCODE)) as [->|n2]; [reflexivity|].
    destruct (decide (op = opDELEGATECALL)) as [->|n3]; [reflexivity|].
    destruct (decide (op = opSTATICCALL)) as [->|n4]; [reflexivity|].
    rewrite !bool_decide_false by congruence.
    unfold isCallOpcode.
    rewrite (proj2 (Z.eqb_neq _ _) n1), (proj2 (Z.eqb_neq _ _) n2),
            (proj2 (Z.eqb_neq _ _) n3), (proj2 (Z.eqb_neq _ _) n4).
    reflexivity.
  - rewrite andb_false_r. reflexivity.
Qed.

Lemma applyOverrides_constOf (order : list (string * Z)) (s : option CustomGasSchedule)
    (jt : JumpTable) (op : Z) :
  order ≡ₚ map_to_list (overridesOf s) ->
  constOf (applyOverrides order s jt) op
  = (fun o => if isCallOpcode op && (has s "CALL_COLD" || has s "CALL_WARM"
                                    || has s "CALL_VALUE_XFER" || has s "CALL_NEW_ACCOUNT")
              then Get s "CALL_WARM" params.WarmStorageReadCostEIP2929
              else match opcodeOverride (overridesOf s) op with
                   | Some g => g
                   | None => opConstantGas o
                   end) <$> jt !! op.
Proof.
  intros Hp. destruct (perm_overrides _ _ Hp) as [Hnd Hm].
  unfold applyOverrides. cbv zeta.
  rewrite constOf_overrideSelfdestruct, constOf_overrideExtcodehash,
    constOf_overrideExtcodecopy, constOf_overrideExtcodesize, constOf_overrideBalance,
    constOf_overrideCallFamily, constOf_overrideCreate2, constOf_overrideCreate,
    constOf_overrideCopy, constOf_overrideLog, constOf_overrideKeccak256Word,
    constOf_overrideKeccak256, constOf_overrideExp, constOf_overrideSstore,
    constOf_overrideSload.
  unfold constOf. rewrite constantGasLoop_lookup by exact Hnd. rewrite Hm.
  destruct (decide (op ∈ [opKECCAK256; opCREATE; opCREATE2; opCALL; opCALLCODE;
                          opDELEGATECALL; opSTATICCALL; opBALANCE; opEXTCODESIZE;
                          opEXTCODECOPY; opEXTCODEHASH; opSELFDESTRUCT])) as [Hin|Hout].
  - repeat (apply elem_of_cons in Hin as [->|Hin]);
      [..|apply elem_of_nil in Hin; contradiction];
      unfold opcodeOverride;
      match goal with
      | |- context [opcodeNameOf ?o] =>
          let v := eval vm_compute in (opcodeNameOf o) in change (opcodeNameOf o) with v
      end;
      simpl; destruct (jt !! _); simpl; try reflexivity;
      repeat case_match; reflexivity.
  - rewrite !bool_decide_false by (intros <-; apply Hout; set_solver).
    assert (Hc : isCallOpcode op = false).
    { unfold isCallOpcode. repeat rewrite orb_false_iff. rewrite !Z.eqb_neq.
      repeat split; intros ->; apply Hout; set_solver. }
    rewrite Hc. simpl. destruct (jt !! op); [|reflexivity]. simpl.
    destruct (opcodeOverride (overridesOf s) op); reflexivity.
Qed.

Lemma constantGasLoop_perm (o1 o2 : list (string * Z)) (s : option CustomGasSchedule)
    (jt : JumpTable) :
  o1 ≡ₚ map_to_list (overridesOf s) -> o2 ≡ₚ map_to_list (overridesOf s) ->
  constantGasLoop o1 jt = constantGasLoop o2 jt.
Proof.
  intros H1 H2.
  destruct (perm_overrides _ _ H1) as [Hnd1 Hm1].
  destruct (perm_overrides _ _ H2) as [Hnd2 Hm2].
  apply map_eq. intros op.
  rewrite !constantGasLoop_lookup by assumption. rewrite Hm1, Hm2. reflexivity.
Qed.

Lemma dom_SetConstantGasAt (K g : Z) (jt : JumpTable) :
  dom (SetConstantGasAt K g jt) = dom jt.
Proof.
  unfold SetConstantGasAt. destruct (jt !! K) eqn:E; [|reflexivity].
  unfold JumpTable in *. apply dom_insert_lookup_L. rewrite E. eexists; reflexivity.
Qed.

Lemma dom_SetDynamicGasAt (K : Z) (f : CustomDynGas) (jt : JumpTable) :
  dom (SetDynamicGasAt K f jt) = dom jt.
Proof.
  unfold SetDynamicGasAt. destruct (jt !! K) eqn:E; [|reflexivity].
  unfold JumpTable in *. apply dom_insert_lookup_L. rewrite E. eexists; reflexivity.
Qed.

Lemma dom_constantGasLoop (order : list (string * Z)) (jt : JumpTable) :
  dom (constantGasLoop order jt) = dom jt.
Proof.
  revert jt. induction order as [|[n g] rest IH]; intros jt; [reflexivity|].
  rewrite constantGasLoop_cons, IH.
  destruct (opcodeFromString n); [apply dom_SetConstantGasAt|reflexivity].
Qed.

Ltac dom_block :=
  repeat match goal with |- context [if ?c then _ else _] => destruct c end;
  cbv zeta; repeat (rewrite dom_SetDynamicGasAt || rewrite dom_SetConstantGasAt);
  reflexivity.

Lemma dom_override_blocks (s : option CustomGasSchedule) :
  (forall J, dom (overrideSload s J) = dom J) /\
  (forall J, dom (overrideSstore s J) = dom J) /\
  (forall J, dom (overrideExp s J) = dom J) /\
  (forall J, dom (overrideKeccak256 s J) = dom J) /\
  (forall J, dom (overrideKeccak256Word s J) = dom J) /\
  (forall J, dom (overrideLog s J) = dom J) /\
  (forall J, dom (overrideCopy s J) = dom J) /\
  (forall J, dom (overrideCreate s J) = dom J) /\
  (forall J, dom (overrideCreate2 s J) = dom J) /\
  (forall J, dom (overrideCallFamily s J) = dom J) /\
  (forall J, dom (overrideBalance s J) = dom J) /\
  (forall J, dom (overrideExtcodesize s J) = dom J) /\
  (forall J, dom (overrideExtcodecopy s J) = dom J) /\
  (forall J, dom (overrideExtcodehash s J) = dom J) /\
  (forall J, dom (overrideSelfdestruct s J) = dom J).
Proof.
  unfold overrideSload, overrideSstore, overrideExp, overrideKeccak256,
    overrideKeccak256Word, overrideLog, overrideCopy, overrideCreate, overrideCreate2,
    overrideCallFamily, overrideBalance, overrideExtcodesize, overrideExtcodecopy,
    overrideExtcodehash, overrideSelfdestruct.
  repeat split; intros J; dom_block.
Qed.

Ltac exp_untouched :=
  repeat match goal with |- context [if ?c then _ else _] => destruct c end;
  cbv zeta;
  repeat (rewrite lookup_SetDynamicGasAt || rewrite lookup_SetConstantGasAt);
  rewrite ?bool_decide_false by (intros Heq; vm_compute in Heq; discriminate);
  reflexivity.

Lemma lookup_override_blocks_opEXP (s : option CustomGasSchedule) :
  (forall J, overrideSload s J !! opEXP = J !! opEXP) /\
  (forall J, overrideSstore s J !! opEXP = J !! opEXP) /\
  (forall J, overrideKeccak256 s J !! opEXP = J !! opEXP) /\
  (forall J, overrideKeccak256Word s J !! opEXP = J !! opEXP) /\
  (forall J, overrideLog s J !! opEXP = J !! opEXP) /\
  (forall J, overrideCopy s J !! opEXP = J !! opEXP) /\
  (forall J, overrideCreate s J !! opEXP = J !! opEXP) /\
  (forall J, overrideCreate2 s J !! opEXP = J !! opEXP) /\
  (forall J, overrideCallFamily s J !! opEXP = J !! opEXP) /\
  (forall J, overrideBalance s J !! opEXP = J !! opEXP) /\
  (forall J, overrideExtcodesize s J !! opEXP = J !! opEXP) /\
  (forall J, overrideExtcodecopy s J !! opEXP = J !! opEXP) /\
  (forall J, overrideExtcodehash s J !! opEXP = J !! opEXP) /\
  (forall J, overrideSelfdestruct s J !! opEXP = J !! opEXP).
Proof.
  unfold overrideSload, overrideSstore, overrideKeccak256,
    overrideKeccak256Word, overrideLog, overrideCopy, overrideCreate, overrideCreate2,
    overrideCallFamily, overrideBalance, overrideExtcodesize, overrideExtcodecopy,
    overrideExtcodehash, overrideSelfdestruct.
  repeat split; intros J; exp_untouched.
Qed.

Lemma constantGasLoop_no_opcode_names (order : list (string * Z)) (jt : JumpTable) :
  Forall (fun p => opcodeFromString p.1 = None) order ->
  constantGasLoop order jt = jt.
Proof.
  revert jt. induction order as [|[n g] rest IH]; intros jt Hf; [reflexivity|].
  apply Forall_cons in Hf as [Hn Hf]. simpl in Hn.
  rewrite constantGasLoop_cons, Hn. apply IH, Hf.
Qed.

Lemma has_unused_key (s : option CustomGasSchedule) (K : string) :
  (forall k v, overridesOf s !! k = Some v ->
               opcodeFromString k = None /\ k ∉ compoundGasKeys) ->
  is_Some (opcodeFromString K) \/ K ∈ compoundGasKeys ->
  has s K = false.
Proof.
  intros Hk HK. rewrite has_overridesOf. apply bool_decide_false.
  intros [v Hv]. destruct (Hk K v Hv) as [H1 H2].
  destruct HK as [[o Ho]|HK]; congruence.
Qed.

Lemma override_blocks_unused_keys (s : option CustomGasSchedule) :
  (forall k v, overridesOf s !! k = Some v ->
               opcodeFromString k = None /\ k ∉ compoundGasKeys) ->
  (forall J, overrideSload s J = J) /\
  (forall J, overrideSstore s J = J) /\
  (forall J, overrideExp s J = J) /\
  (forall J, overrideKeccak256 s J = J) /\
  (forall J, overrideKeccak256Word s J = J) /\
  (forall J, overrideLog s J = J) /\
  (forall J, overrideCopy s J = J) /\
  (forall J, overrideCreate s J = J) /\
  (forall J, overrideCreate2 s J = J) /\
  (forall J, overrideCallFamily s J = J) /\
  (forall J, overrideBalance s J = J) /\
  (forall J, overrideExtcodesize s J = J) /\
  (forall J, overrideExtcodecopy s J = J) /\
  (forall J, overrideExtcodehash s J = J) /\
  (forall J, overrideSelfdestruct s J = J).
Proof.
  intros Hk.
  repeat split; intros J;
    unfold overrideSload, overrideSstore, overrideExp, overrideKeccak256, overrideKeccak256Word, overrideLog, overrideCopy, overrideCreate, overrideCreate2, overrideCallFamily, overrideBalance, overrideExtcodesize, overrideExtcodecopy, overrideExtcodehash, overrideSelfdestruct;
    repeat match goal with
    | |- context [has s ?K] =>
        rewrite (has_unused_key s K Hk)
          by first [left; vm_compute; eexists; reflexivity
                   | right; apply (bool_decide_unpack _); vm_compute; reflexivity]
    end;
    reflexivity.
Qed.

(** X15: The jump table [applyOverrides] builds does not depend on the order
    in which Go's map iteration visits the overrides. *)
Theorem applyOverrides_order_independent (o1 o2 : list (string * Z))
    (s : option CustomGasSchedule) (jt : JumpTable) :
  o1 ≡ₚ map_to_list (overridesOf s) -> o2 ≡ₚ map_to_list (overridesOf s) ->
  applyOverrides o1 s jt = applyOverrides o2 s jt.
Proof.
  intros H1 H2. unfold applyOverrides.
  rewrite (constantGasLoop_perm o1 o2 s jt H1 H2). reflexivity.
Qed.

(** X16: After [applyOverrides], an opcode present in the table has constant
    gas CALL_WARM (default 100) if it is CALL, CALLCODE, DELEGATECALL or
    STATICCALL and any CALL_* key is set, else the override of its own opcode
    name if there is one, else its base constant gas; absent opcodes stay
    absent. *)
Theorem applyOverrides_constant_gas (order : list (string * Z))
    (s : option CustomGasSchedule) (jt : JumpTable) (op : Z) :
  order ≡ₚ map_to_list (overridesOf s) ->
  opConstantGas <$> applyOverrides order s jt !! op
  = (fun o => if isCallOpcode op && (has s "CALL_COLD" || has s "CALL_WARM"
                                    || has s "CALL_VALUE_XFER" || has s "CALL_NEW_ACCOUNT")
              then Get s "CALL_WARM" params.WarmStorageReadCostEIP2929
              else match opcodeOverride (overridesOf s) op with
                   | Some g => g
                   | None => opConstantGas o
                   end) <$> jt !! op.
Proof. apply applyOverrides_constOf. Qed.

(** X17: When the schedule has an EXP key, the EXP entry gets the EXP value
    both as its constant gas and as the base of its dynamic gas function (with
    EXP_BYTE, default 50, per exponent byte). *)
Theorem exp_override_sets_constant_and_base (order : list (string * Z))
    (s : option CustomGasSchedule) (jt : JumpTable) (o : jtOperation) :
  order ≡ₚ map_to_list (overridesOf s) ->
  has s "EXP" = true ->
  jt !! opEXP = Some o ->
  applyOverrides order s jt !! opEXP
  = Some {| opConstantGas := Get s "EXP" params.ExpGas;
            opDynamicGas := Some (ExpDynGas (Get s "EXP" params.ExpGas)
                                            (Get s "EXP_BYTE" params.ExpByteEIP160)) |}.
Proof.
  intros Hp Hexp Ho. destruct (perm_overrides _ _ Hp) as [Hnd Hm].
  destruct (lookup_override_blocks_opEXP s)
    as (L1 & L2 & L4 & L5 & L6 & L7 & L8 & L9 & L10 & L11 & L12 & L13 & L14 & L15).
  unfold applyOverrides. cbv zeta.
  rewrite L15, L14, L13, L12, L11, L10, L9, L8, L7, L6, L5, L4.
  unfold overrideExp at 1. rewrite Hexp. cbn [orb].
  rewrite lookup_SetDynamicGasAt, bool_decide_true by reflexivity.
  rewrite L2, L1, constantGasLoop_lookup by exact Hnd. rewrite Hm, Ho.
  rewrite has_overridesOf in Hexp. apply bool_decide_eq_true in Hexp as [v Hv].
  assert (Hov : opcodeOverride (overridesOf s) opEXP = Some v).
  { unfold opcodeOverride.
    change (opcodeNameOf opEXP) with (Some "EXP"). exact Hv. }
  rewrite Hov, Get_overridesOf, Hv. reflexivity.
Qed.

(** X18: [BuildCustomJumpTable] never adds or removes an opcode: the custom
    table has entries at exactly the opcodes of the base table. *)
Theorem BuildCustomJumpTable_same_opcodes (order : list (string * Z)) (baseJT : JumpTable)
    (s : option CustomGasSchedule) :
  dom (BuildCustomJumpTable order baseJT s) = dom baseJT.
Proof.
  unfold BuildCustomJumpTable. destruct (negb (HasOverrides s)); [reflexivity|].
  unfold applyOverrides. cbv zeta.
  destruct (dom_override_blocks s)
    as (D1 & D2 & D3 & D4 & D5 & D6 & D7 & D8 & D9 & D10 & D11 & D12 & D13 & D14 & D15).
  rewrite D15, D14, D13, D12, D11, D10, D9, D8, D7, D6, D5, D4, D3, D2, D1.
  apply dom_constantGasLoop.
Qed.

(** X19: A schedule whose keys are neither opcode names nor the compound keys
    [applyOverrides] reads (for example MEMORY and the TX_* keys) leaves the
    base jump table unchanged. *)
Theorem BuildCustomJumpTable_ignores_other_keys (order : list (string * Z))
    (baseJT : JumpTable) (s : option CustomGasSchedule) :
  order ≡ₚ map_to_list (overridesOf s) ->
  (forall k v, overridesOf s !! k = Some v ->
               opcodeFromString k = None /\ k ∉ compoundGasKeys) ->
  BuildCustomJumpTable order baseJT s = baseJT.
Proof.
  intros Hp Hk.
  unfold BuildCustomJumpTable. destruct (negb (HasOverrides s)); [reflexivity|].
  unfold applyOverrides. cbv zeta.
  rewrite constantGasLoop_no_opcode_names.
  2:{ apply Forall_forall. intros [k v] Hin. simpl.
      rewrite Hp, elem_of_map_to_list in Hin. apply (Hk k v Hin). }
  destruct (override_blocks_unused_keys s Hk)
    as (B1 & B2 & B3 & B4 & B5 & B6 & B7 & B8 & B9 & B10 & B11 & B12 & B13 & B14 & B15).
  rewrite B15, B14, B13, B12, B11, B10, B9, B8, B7, B6, B5, B4, B3, B2, B1.
  reflexivity.
Qed.

Lemma memoryGasCost_no_wrap_witness :
  U64.valid 64 /\
  memoryGasCost 64 emptyCallState
  = (inl 6, {| addressAccessList := ∅; callGasTemp := 0;
               memory := {| memLen := 0; lastGasCost := 6 |} |}).
Proof.
  assert (H : U64.valid 64) by (unfold U64.valid, U64.MAX; lia).
  split; [exact H|].
  rewrite (memoryGasCost_no_wrap 64 emptyCallState H). reflexivity.
Defined.

Lemma memoryGasCost_accounting_witness :
  U64.valid (lastGasCost (memory emptyCallState)) /\
  memoryGasCost 64 (snd (memoryGasCost 64 emptyCallState))
  = (inl 0, snd (memoryGasCost 64 emptyCallState)).
Proof.
  assert (H : U64.valid (lastGasCost (memory emptyCallState)))
    by (unfold U64.valid, U64.MAX; simpl; lia).
  split; [exact H|].
  destruct (memoryGasCost_accounting 64 emptyCallState H) as [_ E].
  rewrite E. reflexivity.
Defined.

Lemma copy_and_keccak256_gas_exact_witness :
  U64.valid 3 /\ (forall k, 0 <= (fun _ : nat => 64) k) /\
  makeCustomCopyGas 2 3 (fun _ => 64) 0 64 emptyCallState
  = (inl 12, {| addressAccessList := ∅; callGasTemp := 0;
                memory := {| memLen := 0; lastGasCost := 6 |} |}).
Proof.
  assert (H1 : U64.valid 3) by (unfold U64.valid, U64.MAX; lia).
  assert (H2 : forall k, 0 <= (fun _ : nat => 64) k) by (intros; lia).
  split; [exact H1|]. split; [exact H2|].
  destruct (copy_and_keccak256_gas_exact 2 3 (fun _ => 64) 0 64 emptyCallState H1 H2)
    as [E _].
  rewrite E. reflexivity.
Defined.

Lemma log_gas_exact_witness :
  U64.valid 375 /\ U64.valid 8 /\ 0 <= 2 /\ 0 <= 375 /\ 2 * 375 <= U64.MAX /\
  0 <= (fun _ : nat => 10) 1%nat /\
  makeCustomLogGas 2 375 375 8 (fun _ => 10) 0 64 emptyCallState
  = (inl 1211, {| addressAccessList := ∅; callGasTemp := 0;
                  memory := {| memLen := 0; lastGasCost := 6 |} |}).
Proof.
  assert (H1 : U64.valid 375) by (unfold U64.valid, U64.MAX; lia).
  assert (H2 : U64.valid 8) by (unfold U64.valid, U64.MAX; lia).
  assert (H3 : 0 <= 2) by lia. assert (H4 : 0 <= 375) by lia.
  assert (H5 : 2 * 375 <= U64.MAX) by (unfold U64.MAX; lia).
  assert (H6 : 0 <= (fun _ : nat => 10) 1%nat) by (simpl; lia).
  repeat (split; [assumption|]).
  rewrite (log_gas_exact 2 375 375 8 (fun _ => 10) 0 64 emptyCallState H1 H2 H3 H4 H5 H6).
  reflexivity.
Defined.

Lemma exp_gas_byte_length_witness :
  0 <= (fun _ : nat => 0x1234) 1%nat < 2 ^ 256 /\ U64.valid 10 /\ 0 <= 50 /\
  32 * 50 + 10 <= U64.MAX /\
  (exists len, 0 <= len <= 32 /\ (fun _ : nat => 0x1234) 1%nat < 2 ^ (8 * len) /\
    (len = 0 \/ 2 ^ (8 * (len - 1)) <= (fun _ : nat => 0x1234) 1%nat) /\
    makeCustomExpGas 10 50 (fun _ => 0x1234) 0 0 emptyCallState
    = (inl (10 + 50 * len), emptyCallState)).
Proof.
  assert (H1 : 0 <= (fun _ : nat => 0x1234) 1%nat < 2 ^ 256) by (simpl; lia).
  assert (H2 : U64.valid 10) by (unfold U64.valid, U64.MAX; lia).
  assert (H3 : 0 <= 50) by lia.
  assert (H4 : 32 * 50 + 10 <= U64.MAX) by (unfold U64.MAX; lia).
  repeat (split; [assumption|]).
  exact (exp_gas_byte_length 10 50 (fun _ => 0x1234) 0 0 emptyCallState H1 H2 H3 H4).
Defined.

Lemma sload_moves_cold_cost_off_sstore_witness :
  ((1, 2) ∉ slotAccessList emptyIntraBlockState) /\
  (let s1 := snd (makeCustomSloadGas 2100 100 1 2 emptyIntraBlockState) in
  let r := makeCustomSstoreGas berlinSstoreParams (fun _ => 0) (fun _ => 0) 1 2 5 10000 s1 in
  fst (makeCustomSloadGas 2100 100 1 2 emptyIntraBlockState) = (2100, None) /\
  fst (makeCustomSloadGas 2100 100 1 2 s1) = (100, None) /\
  (sentryGas berlinSstoreParams < 10000 ->
   makeCustomSstoreGas berlinSstoreParams (fun _ => 0) (fun _ => 0) 1 2 5 10000
     emptyIntraBlockState
   = ((U64.add (coldSloadCost berlinSstoreParams) (fst (fst r)), snd (fst r)), snd r))).
Proof.
  assert (H : (1, 2) ∉ slotAccessList emptyIntraBlockState) by (simpl; set_solver).
  split; [exact H|].
  exact (sload_moves_cold_cost_off_sstore 2100 100 berlinSstoreParams (fun _ => 0)
           (fun _ => 0) 1 2 5 10000 emptyIntraBlockState H).
Defined.

Lemma sstore_write_then_restore_refund_witness :
  (fun _ : Z => 0) 2 = 0 /\ (fun _ : Z => 0) 2 = 0 /\ (fun _ : Z => 7) 2 = 7 /\ 7 <> 0 /\
  U64.valid (refundCounter emptyIntraBlockState) /\ U64.valid (warmReadCost berlinSstoreParams) /\
  sentryGas berlinSstoreParams < 10000 /\ sentryGas berlinSstoreParams < 10000 /\
  (let '(r1, s1) := makeCustomSstoreGas berlinSstoreParams (fun _ => 0) (fun _ => 0)
                     1 2 7 10000 emptyIntraBlockState in
  let '(r2, s2) := makeCustomSstoreGas berlinSstoreParams (fun _ => 7) (fun _ => 0)
                     1 2 0 10000 s1 in
  snd r1 = None /\ r2 = (warmReadCost berlinSstoreParams, None) /\
  refundCounter s2 = U64.add (refundCounter emptyIntraBlockState)
    (if 0 =? 0 then safeSub (setGas berlinSstoreParams) (warmReadCost berlinSstoreParams)
     else safeSub (safeSub (resetGas berlinSstoreParams) (coldSloadCost berlinSstoreParams))
                  (warmReadCost berlinSstoreParams))).
Proof.
  assert (H1 : (fun _ : Z => 0) 2 = 0) by reflexivity.
  assert (H2 : (fun _ : Z => 7) 2 = 7) by reflexivity.
  assert (H3 : 7 <> 0) by lia.
  assert (H4 : U64.valid (refundCounter emptyIntraBlockState))
    by (unfold U64.valid, U64.MAX; simpl; lia).
  assert (H5 : U64.valid (warmReadCost berlinSstoreParams))
    by (unfold U64.valid, U64.MAX; simpl; lia).
  assert (H6 : sentryGas berlinSstoreParams < 10000) by (simpl; lia).
  repeat (split; [assumption|]).
  exact (sstore_write_then_restore_refund berlinSstoreParams (fun _ => 0) (fun _ => 7)
           (fun _ => 0) 1 2 0 7 10000 10000 emptyIntraBlockState H1 H1 H2 H3 H4 H5 H6 H6).
Defined.

Lemma call_target_warm_after_any_call_witness :
  Bytes20 (Back1 staticCallEnv) = Bytes20 (Back1 staticCallEnv) /\
  (let s1 := snd (callDynamicGas CALL berlinCallParams staticCallEnv 10000 0 emptyCallState) in
  callDynamicGas STATICCALL berlinCallParams staticCallEnv 8000 0 s1
  = callInner STATICCALL berlinCallParams staticCallEnv 8000 0 s1).
Proof.
  split; [reflexivity|].
  exact (call_target_warm_after_any_call CALL STATICCALL berlinCallParams staticCallEnv
           staticCallEnv 10000 0 8000 0 emptyCallState eq_refl).
Defined.

Lemma applyOverrides_order_independent_witness :
  expCallOrder ≡ₚ map_to_list (overridesOf expCallSchedule) /\
  expCallOrderRev ≡ₚ map_to_list (overridesOf expCallSchedule) /\
  applyOverrides expCallOrder expCallSchedule smallJumpTable
  = applyOverrides expCallOrderRev expCallSchedule smallJumpTable.
Proof.
  assert (H1 : expCallOrder ≡ₚ map_to_list (overridesOf expCallSchedule))
    by (apply (bool_decide_unpack _); vm_compute; reflexivity).
  assert (H2 : expCallOrderRev ≡ₚ map_to_list (overridesOf expCallSchedule))
    by (apply (bool_decide_unpack _); vm_compute; reflexivity).
  split; [exact H1|]. split; [exact H2|].
  exact (applyOverrides_order_independent _ _ _ smallJumpTable H1 H2).
Defined.

Lemma applyOverrides_constant_gas_witness :
  expCallOrder ≡ₚ map_to_list (overridesOf expCallSchedule) /\
  opConstantGas <$> applyOverrides expCallOrder expCallSchedule smallJumpTable !! opCALL
  = Some 7.
Proof.
  assert (H : expCallOrder ≡ₚ map_to_list (overridesOf expCallSchedule))
    by (apply (bool_decide_unpack _); vm_compute; reflexivity).
  split; [exact H|].
  rewrite (applyOverrides_constant_gas expCallOrder expCallSchedule smallJumpTable opCALL H).
  vm_compute. reflexivity.
Defined.

Lemma exp_override_sets_constant_and_base_witness :
  expCallOrder ≡ₚ map_to_list (overridesOf expCallSchedule) /\
  has expCallSchedule "EXP" = true /\
  smallJumpTable !! opEXP
  = Some {| opConstantGas := 10; opDynamicGas := Some (BaseDynamicGas "gasExpEIP160") |} /\
  applyOverrides expCallOrder expCallSchedule smallJumpTable !! opEXP
  = Some {| opConstantGas := 20; opDynamicGas := Some (ExpDynGas 20 50) |}.
Proof.
  assert (H1 : expCallOrder ≡ₚ map_to_list (overridesOf expCallSchedule))
    by (apply (bool_decide_unpack _); vm_compute; reflexivity).
  assert (H2 : has expCallSchedule "EXP" = true) by (vm_compute; reflexivity).
  assert (H3 : smallJumpTable !! opEXP
               = Some {| opConstantGas := 10;
                         opDynamicGas := Some (BaseDynamicGas "gasExpEIP160") |})
    by (vm_compute; reflexivity).
  split; [exact H1|]. split; [exact H2|]. split; [exact H3|].
  rewrite (exp_override_sets_constant_and_base _ _ _ _ H1 H2 H3).
  vm_compute. reflexivity.
Defined.

Lemma BuildCustomJumpTable_ignores_other_keys_witness :
  memoryTxOrder ≡ₚ map_to_list (overridesOf memoryTxSchedule) /\
  (forall k v, overridesOf memoryTxSchedule !! k = Some v ->
               opcodeFromString k = None /\ k ∉ compoundGasKeys) /\
  BuildCustomJumpTable memoryTxOrder smallJumpTable memoryTxSchedule = smallJumpTable.
Proof.
  assert (H1 : memoryTxOrder ≡ₚ map_to_list (overridesOf memoryTxSchedule))
    by (apply (bool_decide_unpack _); vm_compute; reflexivity).
  assert (H2 : map_Forall (fun k _ => opcodeFromString k = None /\ k ∉ compoundGasKeys)
                 (overridesOf memoryTxSchedule))
    by (apply (bool_decide_unpack _); vm_compute; reflexivity).
  split; [exact H1|]. split; [exact H2|].
  exact (BuildCustomJumpTable_ignores_other_keys _ _ _ H1 H2).
Defined.
